(** * Class-level event dispatch of Jii ([base/Event.js])

    A shallow embedding of the static methods of the [Event] class
    ([normalizeHandler], [on], [off], [hasHandlers], [trigger]) over a small
    model of the JavaScript object heap: values, objects with a prototype
    link and own properties, arrays as objects with index properties, and
    the lodash predicates the source calls. *)

From Stdlib Require Import ZArith String List Bool Lia.
From stdpp Require Import base option list gmap strings pretty.

Local Open Scope string_scope.
Local Open Scope list_scope.
Local Open Scope Z_scope.

(** ** JavaScript values and the object heap *)

(** An object is named by its position in the heap. *)
Definition loc := nat.

(** Numbers are restricted to the integers; [NaN], symbols and accessor
    properties are outside the model. *)
Inductive value : Type :=
  | VUndefined
  | VNull
  | VBool (b : bool)
  | VNumber (z : Z)
  | VString (s : string)
  | VRef (l : loc).

#[global] Instance value_eq_dec : EqDecision value.
Proof. solve_decision. Defined.

(** What [typeof], [Array.isArray] and lodash's tag tests can tell apart. *)
Inductive oclass : Type := CFunction | CArray | CObject.

#[global] Instance oclass_eq_dec : EqDecision oclass.
Proof. solve_decision. Defined.

Record object : Type := mkObject {
  o_class : oclass;
  o_proto : option loc;
  o_props : gmap string value
}.

Definition heap := list object.

(** The intrinsic objects every realm starts with, at fixed locations. *)
Definition ObjectPrototype : loc := 0%nat.
Definition FunctionPrototype : loc := 1%nat.
Definition FunctionConstructor : loc := 2%nat.
Definition ObjectConstructor : loc := 3%nat.
Definition ArrayPrototype : loc := 4%nat.
Definition BooleanPrototype : loc := 5%nat.
Definition NumberPrototype : loc := 6%nat.
Definition StringPrototype : loc := 7%nat.

(** Exceptions the modelled code can raise or let through. *)
Inductive exn : Type :=
  | TypeError
  | ApplicationException (message : string)
  | Thrown (v : value).

(** Outcome of a computation: a value, an exception, or [Stuck] when the
    heap is not one a JavaScript engine can build (a dangling reference or
    a cyclic prototype chain). *)
Inductive res (A : Type) : Type :=
  | Ok (a : A)
  | Err (e : exn)
  | Stuck.
Arguments Ok {A} a.
Arguments Err {A} e.
Arguments Stuck {A}.

Definition res_bind {A B} (r : res A) (k : A -> res B) : res B :=
  match r with
  | Ok a => k a
  | Err e => Err e
  | Stuck => Stuck
  end.

(** ToBoolean. *)
Definition truthy (v : value) : bool :=
  match v with
  | VUndefined | VNull => false
  | VBool b => b
  | VNumber z => negb (z =? 0)
  | VString s => negb (String.eqb s "")
  | VRef _ => true
  end.

(** The [===] operator. *)
Definition strict_eq (v w : value) : bool := bool_decide (v = w).

(** [[[Get]]] on an object: own properties first, then the prototype chain.
    A chain of distinct objects is no longer than the heap, which bounds the
    search. *)
Fixpoint Get_from (fuel : nat) (hp : heap) (l : loc) (k : string) : option value :=
  match fuel with
  | O => None
  | S fuel' =>
      match hp !! l with
      | None => None
      | Some o =>
          match o_props o !! k with
          | Some v => Some v
          | None =>
              match o_proto o with
              | Some p => Get_from fuel' hp p k
              | None => Some VUndefined
              end
          end
      end
  end.

Definition Get (hp : heap) (l : loc) (k : string) : res value :=
  match Get_from (List.length hp) hp l k with
  | Some v => Ok v
  | None => Stuck
  end.

(** Own index and [length] properties of a primitive string. *)
Definition string_own (s : string) (k : string) : option value :=
  if String.eqb k "length" then Some (VNumber (Z.of_nat (String.length s)))
  else
    match List.find (fun n => String.eqb (pretty n) k) (seq 0 (String.length s)) with
    | Some n => Some (VString (String.substring n 1 s))
    | None => None
    end.

(** Property read [v[k]] on any value: primitives read through their
    wrapper prototype, [undefined] and [null] raise. *)
Definition GetV (hp : heap) (v : value) (k : string) : res value :=
  match v with
  | VUndefined | VNull => Err TypeError
  | VBool _ => Get hp BooleanPrototype k
  | VNumber _ => Get hp NumberPrototype k
  | VString s =>
      match string_own s k with
      | Some r => Ok r
      | None => Get hp StringPrototype k
      end
  | VRef l => Get hp l k
  end.

(** [Object.getPrototypeOf]. *)
Definition getPrototypeOf (hp : heap) (v : value) : res value :=
  match v with
  | VUndefined | VNull => Err TypeError
  | VBool _ => Ok (VRef BooleanPrototype)
  | VNumber _ => Ok (VRef NumberPrototype)
  | VString _ => Ok (VRef StringPrototype)
  | VRef l =>
      match hp !! l with
      | Some o =>
          match o_proto o with
          | Some p => Ok (VRef p)
          | None => Ok VNull
          end
      | None => Stuck
      end
  end.

(** ** The lodash predicates used by the source *)

Definition class_of (hp : heap) (v : value) : option oclass :=
  match v with
  | VRef l => o_class <$> hp !! l
  | _ => None
  end.

(** [_.isObject]: true of every object, functions (hence classes) included. *)
Definition _isObject (v : value) : bool :=
  match v with
  | VRef _ => true
  | _ => false
  end.

Definition _isFunction (hp : heap) (v : value) : bool :=
  bool_decide (class_of hp v = Some CFunction).

Definition _isArray (hp : heap) (v : value) : bool :=
  bool_decide (class_of hp v = Some CArray).

Definition _isString (v : value) : bool :=
  match v with
  | VString _ => true
  | _ => false
  end.

Definition _isUndefined (v : value) : bool :=
  match v with
  | VUndefined => true
  | _ => false
  end.

(** [_.has(v, k)]: [v] is not nullish and has [k] as an own property. *)
Definition _has (hp : heap) (v : value) (k : string) : bool :=
  match v with
  | VRef l =>
      match hp !! l with
      | Some o => bool_decide (is_Some (o_props o !! k))
      | None => false
      end
  | VString s => bool_decide (is_Some (string_own s k))
  | _ => false
  end.

(** ToPropertyKey on primitives; [ToString] of the host converts objects. *)
Definition primitive_key (v : value) : option string :=
  match v with
  | VUndefined => Some "undefined"
  | VNull => Some "null"
  | VBool true => Some "true"
  | VBool false => Some "false"
  | VNumber z => Some (pretty z)
  | VString s => Some s
  | VRef _ => None
  end.

(** ** The event record and the registry *)

(** Fields of an [Event] instance as [preInit] sets them. *)
Record Event : Type := mkEvent {
  params : gmap string value;
  data : value;
  handled : bool;
  sender : value;
  name : value
}.

Definition new_Event : Event :=
  {| params := ∅; data := VNull; handled := false; sender := VNull; name := VNull |}.

Definition set_data (v : value) (e : Event) : Event :=
  {| params := params e; data := v; handled := handled e; sender := sender e; name := name e |}.
Definition set_handled (b : bool) (e : Event) : Event :=
  {| params := params e; data := data e; handled := b; sender := sender e; name := name e |}.
Definition set_sender (v : value) (e : Event) : Event :=
  {| params := params e; data := data e; handled := handled e; sender := v; name := name e |}.
Definition set_name (v : value) (e : Event) : Event :=
  {| params := params e; data := data e; handled := handled e; sender := sender e; name := v |}.

(** An entry [[cls, handler, data]] of a list of [_events]. *)
Record binding : Type := mkBinding {
  item0 : value;
  item1 : value;
  item2 : value
}.

(** The heap together with the static [Event._events]; event names that
    collide with a property inherited from [Object.prototype] are outside
    the model. *)
Record world : Type := mkWorld {
  objects : heap;
  _events : gmap string (list binding)
}.

(** One call of a handler: the function, its receiver and the record it
    was given. *)
Record invocation : Type := mkInvocation {
  callee : loc;
  receiver : value;
  argument : Event
}.

(** ** External collaborators *)

(** What the source takes from outside this file.
    - [namespace]: Modelled from the spec: [Jii.namespace] of [BaseJii],
      which is not among the sources; given a type name it returns the type
      handle or fails.
    - [JSON_stringify]: the text [JSON.stringify(v)] contributes to a string
      concatenation, or the exception it raises.
    - [ToString]: conversion of an object used as a property key.
    - [Call]: the body of a function object, run with a receiver and the
      event record as sole argument; it acts on the record it is given. *)
Class Host : Type := mkHost {
  namespace : string -> res loc;
  JSON_stringify : heap -> value -> res string;
  ToString : heap -> loc -> res string;
  Call : heap -> loc -> value -> Event -> res Event
}.

Definition ToPropertyKey `{Host} (hp : heap) (v : value) : res string :=
  match v with
  | VRef l => ToString hp l
  | _ => match primitive_key v with Some k => Ok k | None => Stuck end
  end.

(** Computed member access [base[key]]. *)
Definition GetV_computed `{Host} (hp : heap) (base key : value) : res value :=
  match base with
  | VUndefined | VNull => Err TypeError
  | _ => res_bind (ToPropertyKey hp key) (GetV hp base)
  end.

(** ** A state and exception monad over the world *)

Definition M (A : Type) : Type := world -> res A * world.

Definition ret {A} (a : A) : M A := fun w => (Ok a, w).

Definition bind {A B} (m : M A) (k : A -> M B) : M B :=
  fun w =>
    match m w with
    | (Ok a, w') => k a w'
    | (Err e, w') => (Err e, w')
    | (Stuck, w') => (Stuck, w')
    end.

Notation "'let*' x ':=' m 'in' k" := (bind m (fun x => k))
  (at level 10, x name, m at level 100, k at level 200).
Notation "'do' m 'then' k" := (bind m (fun _ => k))
  (at level 10, m at level 100, k at level 200).

Definition lift {A} (r : res A) : M A := fun w => (r, w).
Definition throw {A} (e : exn) : M A := lift (Err e).
Definition get_heap : M heap := fun w => (Ok (objects w), w).
Definition get_events : M (gmap string (list binding)) := fun w => (Ok (_events w), w).
Definition set_events (evs : gmap string (list binding)) : M unit :=
  fun w => (Ok tt, {| objects := objects w; _events := evs |}).

(** Property read in the current heap. *)
Definition getv (v : value) (k : string) : M value :=
  fun w => (GetV (objects w) v k, w).

(** Evaluation of an object literal: a fresh ordinary object. *)
Definition new_object (props : list (string * value)) : M value :=
  fun w =>
    (Ok (VRef (List.length (objects w))),
     {| objects := objects w ++ [mkObject CObject (Some ObjectPrototype) (list_to_map props)];
        _events := _events w |}).

(** Assignment [target[k] = v] to an own data property. *)
Definition set_prop (target : value) (k : string) (v : value) : M unit :=
  fun w =>
    match target with
    | VRef l =>
        match objects w !! l with
        | Some o =>
            (Ok tt,
             {| objects := <[l := mkObject (o_class o) (o_proto o) (<[k := v]> (o_props o))]> (objects w);
                _events := _events w |})
        | None => (Stuck, w)
        end
    | _ => (Err TypeError, w)
    end.

(** ** [Event.normalizeHandler] *)

(** The test [_isArray(handler) && handler.length === 2]. *)
Definition is_pair (handler : value) : M bool :=
  let* hp := get_heap in
  if _isArray hp handler then
    let* len := getv handler "length" in
    ret (strict_eq len (VNumber 2))
  else ret false.

(** The test [_isFunction(handler[0]) && _isObject(handler[1])]. *)
Definition is_callable_pair (handler : value) : M bool :=
  let* h0 := getv handler "0" in
  let* hp := get_heap in
  if _isFunction hp h0 then
    let* h1 := getv handler "1" in
    ret (_isObject h1)
  else ret false.

(** [this] is the class the static method is called on; [context] is
    [VUndefined] when the caller passes one argument. *)
Definition normalizeHandler `{Host} (this : loc) (handler context : value) : M value :=
  let context := if truthy context then context else VNull in
  if negb (truthy handler) then ret VNull
  else
    let* hp := get_heap in
    if _isObject handler && _has hp handler "callback" && _has hp handler "context"
    then ret handler
    else
      let* pair := is_pair handler in
      if pair then
        let* callable := is_callable_pair handler in
        if callable then
          let* c := getv handler "1" in
          let* f := getv handler "0" in
          new_object [("context", c); ("callback", f)]
        else
          let* h0 := getv handler "0" in
          do (match h0 with
              | VString s =>
                  let* t := lift (namespace s) in
                  set_prop handler "0" (VRef t)
              | _ => ret tt
              end) then
          let* c := getv handler "0" in
          let* base := getv handler "0" in
          let* key := getv handler "1" in
          let* hp' := get_heap in
          let* f := lift (GetV_computed hp' base key) in
          new_object [("context", c); ("callback", f)]
      else
        match handler with
        | VString s =>
            let* f := getv (VRef this) s in
            new_object [("context", context); ("callback", f)]
        | _ =>
            if _isFunction hp handler then
              new_object [("context", context); ("callback", handler)]
            else
              let* text := lift (JSON_stringify hp handler) in
              throw (ApplicationException ("Wrong handler format:" +:+ text))
        end.

(** ** [Event.on] *)

(** [if (_isString(cls)) cls = Jii.namespace(cls)]. *)
Definition resolve `{Host} (cls : value) : res value :=
  match cls with
  | VString s => res_bind (namespace s) (fun t => Ok (VRef t))
  | _ => Ok cls
  end.

(** Omitted arguments are [VUndefined]. *)
Definition on `{Host} (this : loc) (cls : value) (name : string)
    (handler data isAppend : value) : M unit :=
  let data := if truthy data then data else VNull in
  let isAppend := if _isUndefined isAppend then VBool true else isAppend in
  let* cls := lift (resolve cls) in
  let* handler := normalizeHandler this handler VUndefined in
  let* evs := get_events in
  let item := mkBinding cls handler data in
  if truthy isAppend || negb (bool_decide (is_Some (evs !! name))) then
    let items := default [] (evs !! name) in
    match List.find (fun i => strict_eq (item0 i) cls) items with
    | Some _ => set_events (<[name := items]> evs)
    | None => set_events (<[name := items ++ [item]]> evs)
    end
  else set_events (<[name := item :: default [] (evs !! name)]> evs).

(** ** [Event.off] *)

(** The predicate given to [filter]:
    [item[0] !== cls && (!handler || item[1].callback === handler.callback)]. *)
Definition off_keeps (hp : heap) (cls handler : value) (item : binding) : res bool :=
  if negb (strict_eq (item0 item) cls) then
    if negb (truthy handler) then Ok true
    else
      res_bind (GetV hp (item1 item) "callback") (fun a =>
      res_bind (GetV hp handler "callback") (fun b =>
      Ok (strict_eq a b)))
  else Ok false.

Fixpoint filter_res {A} (p : A -> res bool) (l : list A) : res (list A) :=
  match l with
  | [] => Ok []
  | x :: l' =>
      res_bind (p x) (fun keep =>
      res_bind (filter_res p l') (fun r =>
      Ok (if keep then x :: r else r)))
  end.

Definition off `{Host} (this : loc) (cls : value) (name : string) (handler : value) : M bool :=
  let handler := if truthy handler then handler else VNull in
  let* cls := lift (resolve cls) in
  let* handler := normalizeHandler this handler VUndefined in
  let* evs := get_events in
  match evs !! name with
  | None => ret false
  | Some items =>
      let previousLength := List.length items in
      let* hp := get_heap in
      let* kept := lift (filter_res (off_keeps hp cls handler) items) in
      do set_events (<[name := kept]> evs) then
      ret (negb (Nat.eqb (List.length kept) previousLength))
  end.

(** ** [Event.hasHandlers] *)

Fixpoint hasHandlers_loop (fuel : nat) (hp : heap) (items : list binding) (cls : value)
    : res bool :=
  match fuel with
  | O => Stuck
  | S fuel' =>
      match List.find (fun i => strict_eq (item0 i) cls) items with
      | Some _ => Ok true
      | None =>
          res_bind (getPrototypeOf hp cls) (fun p =>
          if negb (truthy p) then Ok false
          else hasHandlers_loop fuel' hp items p)
      end
  end.

(** A walk visits the start value and then distinct objects of the heap. *)
Definition walk_bound (hp : heap) : nat := S (List.length hp).

Definition hasHandlers `{Host} (w : world) (cls : value) (name : string) : res bool :=
  match _events w !! name with
  | None => Ok false
  | Some items =>
      res_bind (resolve cls) (fun cls =>
      hasHandlers_loop (walk_bound (objects w)) (objects w) items cls)
  end.

(** ** [Event.trigger] *)

(** [item[1].callback.call(item[1].context, event)]; [call] is taken to be
    [Function.prototype.call], so only function objects can be called. *)
Definition invoke `{Host} (hp : heap) (item : binding) (event : Event)
    : list invocation * res Event :=
  match GetV hp (item1 item) "callback" with
  | Ok (VUndefined | VNull) => ([], Err TypeError)
  | Ok f =>
      match GetV hp (item1 item) "context" with
      | Ok c =>
          match f with
          | VRef l =>
              if _isFunction hp f then ([mkInvocation l c event], Call hp l c event)
              else ([], Err TypeError)
          | _ => ([], Err TypeError)
          end
      | Err e => ([], Err e)
      | Stuck => ([], Stuck)
      end
  | Err e => ([], Err e)
  | Stuck => ([], Stuck)
  end.

(** The body of the [while], one hierarchy level: [forEach] over the list
    with the local flag [isHandled]. Returns the calls made, in order. *)
Fixpoint forEach `{Host} (hp : heap) (items : list binding) (cls : value)
    (event : Event) (isHandled : bool) : list invocation * res (Event * bool) :=
  match items with
  | [] => ([], Ok (event, isHandled))
  | item :: rest =>
      if isHandled || negb (strict_eq (item0 item) cls) then
        forEach hp rest cls event isHandled
      else
        match invoke hp item (set_data (item2 item) event) with
        | (calls, Ok event') =>
            let (calls', r) := forEach hp rest cls event' (handled event') in
            (calls ++ calls', r)
        | (calls, Err e) => (calls, Err e)
        | (calls, Stuck) => (calls, Stuck)
        end
  end.

Fixpoint trigger_loop `{Host} (fuel : nat) (hp : heap) (items : list binding)
    (cls : value) (event : Event) : list invocation * res Event :=
  match fuel with
  | O => ([], Stuck)
  | S fuel' =>
      match forEach hp items cls event false with
      | (calls, Ok (event', isHandled)) =>
          if isHandled then (calls, Ok event')
          else
            match getPrototypeOf hp cls with
            | Ok p =>
                if negb (truthy p) then (calls, Ok event')
                else
                  let (calls', r) := trigger_loop fuel' hp items p event' in
                  (calls ++ calls', r)
            | Err e => (calls, Err e)
            | Stuck => (calls, Stuck)
            end
      | (calls, Err e) => (calls, Err e)
      | (calls, Stuck) => (calls, Stuck)
      end
  end.

(** [event] is [None] when the caller passes none (or [null]). The result
    pairs the handler calls made, in order, with the outcome: the event
    record as the handlers left it, or [None] when nothing was dispatched
    because the name has no list. *)
Definition trigger `{Host} (w : world) (cls : value) (name : string) (event : option Event)
    : list invocation * res (option Event) :=
  match _events w !! name with
  | None => ([], Ok None)
  | Some items =>
      let event := default new_Event event in
      let event := set_name (VString name) (set_handled false event) in
      match resolve cls with
      | Ok cls =>
          let event :=
            if _isObject cls && strict_eq (sender event) VNull
            then set_sender cls event else event in
          match (if _isObject cls then GetV (objects w) cls "constructor" else Ok cls) with
          | Ok cls =>
              let (calls, r) :=
                trigger_loop (walk_bound (objects w)) (objects w) items cls event in
              (calls, res_bind r (fun e => Ok (Some e)))
          | Err e => ([], Err e)
          | Stuck => ([], Stuck)
          end
      | Err e => ([], Err e)
      | Stuck => ([], Stuck)
      end
  end.

(** The event record as [trigger] hands it to the first handler, before
    [data] is set: [handled] and [name] reset, [sender] defaulted. *)
Definition prepared (name : string) (target : value) (event : option Event) : Event :=
  let e := set_name (VString name) (set_handled false (default new_Event event)) in
  if _isObject target && strict_eq (sender e) VNull then set_sender target e else e.

(** ** The hierarchy a walk visits *)

(** The values [cls] takes in the [while] loops of [hasHandlers] and
    [trigger]: the start value, then each [Object.getPrototypeOf] until it
    is falsy. *)
Fixpoint levels_from (fuel : nat) (hp : heap) (v : value) : option (list value) :=
  match fuel with
  | O => None
  | S fuel' =>
      match getPrototypeOf hp v with
      | Ok p =>
          if negb (truthy p) then Some [v]
          else cons v <$> levels_from fuel' hp p
      | _ => None
      end
  end.

Definition levels (hp : heap) (v : value) : option (list value) :=
  levels_from (walk_bound hp) hp v.

(** Dispatch over a known list of levels. *)
Fixpoint dispatch `{Host} (hp : heap) (items : list binding) (ls : list value)
    (event : Event) : list invocation * res Event :=
  match ls with
  | [] => ([], Ok event)
  | cls :: ls' =>
      match forEach hp items cls event false with
      | (calls, Ok (event', isHandled)) =>
          if isHandled then (calls, Ok event')
          else
            let (calls', r) := dispatch hp items ls' event' in
            (calls ++ calls', r)
      | (calls, Err e) => (calls, Err e)
      | (calls, Stuck) => (calls, Stuck)
      end
  end.

(** Whether the handler of a recorded call returned with [handled] set. *)
Definition cancelled_by `{Host} (hp : heap) (i : invocation) : bool :=
  match Call hp (callee i) (receiver i) (argument i) with
  | Ok e => handled e
  | _ => false
  end.

(** The bound types of a list of bindings. *)
Definition bound_types (items : list binding) : list value := map item0 items.

(** The list registered for a name, empty when there is none. *)
Definition bindings (w : world) (name : string) : list binding :=
  default [] (_events w !! name).

(** ** Building heaps: what the engine does for declarations and [new] *)

Definition props_of (l : list (string * value)) : gmap string value := list_to_map l.

(** The realm before any user code runs. *)
Definition initial_heap : heap :=
  [ mkObject CObject None (props_of [("constructor", VRef ObjectConstructor)]);
    mkObject CFunction (Some ObjectPrototype) (props_of [("constructor", VRef FunctionConstructor)]);
    mkObject CFunction (Some FunctionPrototype) (props_of [("prototype", VRef FunctionPrototype)]);
    mkObject CFunction (Some FunctionPrototype) (props_of [("prototype", VRef ObjectPrototype)]);
    mkObject CArray (Some ObjectPrototype) (props_of [("length", VNumber 0)]);
    mkObject CObject (Some ObjectPrototype) ∅;
    mkObject CObject (Some ObjectPrototype) ∅;
    mkObject CObject (Some ObjectPrototype) ∅ ].

(** [class C { static ... }] and [class C extends P { static ... }]: the
    prototype object is allocated first, the constructor after it; the
    result is the constructor. *)
Definition declare_class (parent : option loc) (statics : list (string * value)) (hp : heap)
    : heap * loc :=
  let proto := List.length hp in
  let ctor := S proto in
  let parent_proto :=
    match parent with
    | Some p => match Get hp p "prototype" with Ok (VRef q) => q | _ => ObjectPrototype end
    | None => ObjectPrototype
    end in
  (hp ++ [ mkObject CObject (Some parent_proto) (props_of [("constructor", VRef ctor)]);
           mkObject CFunction (Some (default FunctionPrototype parent))
             (props_of (("prototype", VRef proto) :: statics)) ],
   ctor).

(** [new C()] for a class without own instance fields. *)
Definition new_instance (C : loc) (hp : heap) : heap * loc :=
  let proto := match Get hp C "prototype" with Ok (VRef q) => q | _ => ObjectPrototype end in
  (hp ++ [mkObject CObject (Some proto) ∅], List.length hp).

(** A function expression. *)
Definition new_function (hp : heap) : heap * loc :=
  (hp ++ [mkObject CFunction (Some FunctionPrototype) ∅], List.length hp).

(** An array literal. *)
Definition new_array (elems : list value) (hp : heap) : heap * loc :=
  (hp ++ [mkObject CArray (Some ArrayPrototype)
            (<["length" := VNumber (Z.of_nat (List.length elems))]>
               (props_of (imap (fun i v => (pretty i, v)) elems)))],
   List.length hp).

(** ** A small program to run the model on

    [class Event { static trigger() {} }], classes [A], [B extends A],
    [C extends B], one instance of each, two free functions and the arrays
    [['app.A', 'm']] and [[1, 2]]. *)

Definition demo_heap : heap :=
  let '(hp, m) := new_function initial_heap in
  let '(hp, _) := declare_class None [("trigger", VRef m)] hp in
  let '(hp, a) := declare_class None [] hp in
  let '(hp, b) := declare_class (Some a) [] hp in
  let '(hp, c) := declare_class (Some b) [] hp in
  let '(hp, _) := new_instance a hp in
  let '(hp, _) := new_instance b hp in
  let '(hp, _) := new_instance c hp in
  let '(hp, _) := new_function hp in
  let '(hp, _) := new_function hp in
  let '(hp, _) := new_array [VString "app.A"; VString "m"] hp in
  let '(hp, _) := new_array [VNumber 1; VNumber 2] hp in
  hp.

Definition demo_trigger_method : loc := 8%nat.
Definition demo_Event : loc := 10%nat.
Definition demo_A : loc := 12%nat.
Definition demo_B : loc := 14%nat.
Definition demo_C : loc := 16%nat.
Definition demo_a : loc := 17%nat.
Definition demo_b : loc := 18%nat.
Definition demo_c : loc := 19%nat.
Definition demo_h1 : loc := 20%nat.
Definition demo_h2 : loc := 21%nat.
Definition demo_pair : loc := 22%nat.
Definition demo_numbers : loc := 23%nat.

Definition demo_world : world := mkWorld demo_heap ∅.

(** The one-character string holding a double quote. *)
Definition double_quote : string := String (Ascii.ascii_of_nat 34) EmptyString.

(** JSON text of the primitives; enough for the values the examples reject. *)
Definition demo_stringify (hp : heap) (v : value) : res string :=
  match v with
  | VNull => Ok "null"
  | VBool true => Ok "true"
  | VBool false => Ok "false"
  | VNumber z => Ok (pretty z)
  | VString s => Ok (double_quote +:+ s +:+ double_quote)
  | VUndefined => Ok "undefined"
  | VRef _ => Ok "{}"
  end.

(** A host in which ['app.A'] names the class [A] and the functions listed
    in [cancelling] set [handled]; every other function returns at once. *)
Definition demo_host (cancelling : list loc) : Host :=
  {| namespace := fun s =>
       if String.eqb s "app.A" then Ok demo_A else Err (Thrown (VString "UnknownType"));
     JSON_stringify := demo_stringify;
     ToString := fun _ _ => Ok "[object Object]";
     Call := fun _ l _ e =>
       if bool_decide (l ∈ cancelling) then Ok (set_handled true e) else Ok e |}.

(** Worlds reached from [demo_world] by registrations on [Event]; handlers
    and data as named, isAppend omitted unless stated. *)

(** [Event.on(A, 'e', h1)]. *)
Definition demo_world_A : world :=
  snd (@on (demo_host []) demo_Event (VRef demo_A) "e" (VRef demo_h1)
         VUndefined VUndefined demo_world).

(** [Event.on(A, 'e', h1); Event.on(B, 'e', h2)]. *)
Definition demo_world_AB : world :=
  snd (@on (demo_host []) demo_Event (VRef demo_B) "e" (VRef demo_h2)
         VUndefined VUndefined demo_world_A).

(** [Event.on(C, 'e', h1)]. *)
Definition demo_world_C : world :=
  snd (@on (demo_host []) demo_Event (VRef demo_C) "e" (VRef demo_h1)
         VUndefined VUndefined demo_world).

(** [Event.on(A, 'e', 'trigger')]. *)
Definition demo_world_named : world :=
  snd (@on (demo_host []) demo_Event (VRef demo_A) "e" (VString "trigger")
         VUndefined VUndefined demo_world).

(** The record a [trigger] of ['e'] on the object [x] starts from. *)
Definition demo_event (x : loc) : Event := prepared "e" (VRef x) None.

(** The five accepted handler representations, in the words of the
    specification: an object exposing [callback] and [context]; a pair of a
    callable and an object; a pair of two strings; a string; a callable. *)
Definition spec_accepted_shape (hp : heap) (v : value) : bool :=
  let pair :=
    _isArray hp v &&
    match GetV hp v "length" with Ok len => strict_eq len (VNumber 2) | _ => false end in
  let first := GetV hp v "0" in
  let second := GetV hp v "1" in
  (_isObject v && _has hp v "callback" && _has hp v "context")
  || (pair && match first, second with
              | Ok f, Ok c => _isFunction hp f && _isObject c
              | _, _ => false
              end)
  || (pair && match first, second with
              | Ok f, Ok c => _isString f && _isString c
              | _, _ => false
              end)
  || _isString v
  || _isFunction hp v.

(** ** Notions used in the statements *)

(** The object an object literal [{context: c, callback: f}] evaluates to. *)
Definition handler_object (c f : value) : object :=
  mkObject CObject (Some ObjectPrototype) (props_of [("context", c); ("callback", f)]).

(** Computations that leave [_events] alone. *)
Definition keeps_events {A} (m : M A) : Prop :=
  forall w, _events (snd (m w)) = _events w.

(** No recorded call returned with [handled] set. *)
Definition quiet `{Host} (hp : heap) (calls : list invocation) : Prop :=
  forall i, In i calls -> cancelled_by hp i = false.

(** A recorded call that returned with [handled] set is the last one. *)
Definition stops_at_cancel `{Host} (hp : heap) (calls : list invocation) : Prop :=
  forall pre i post, calls = pre ++ i :: post -> cancelled_by hp i = true -> post = [].

(** The list [on] leaves under [name], given the list found there, the
    resolved class and the binding built from the arguments. *)
Definition registered (isAppend : value) (old : option (list binding)) (c : value)
    (item : binding) : list binding :=
  if truthy (if _isUndefined isAppend then VBool true else isAppend)
     || negb (bool_decide (is_Some old))
  then
    match List.find (fun i => strict_eq (item0 i) c) (default [] old) with
    | Some _ => default [] old
    | None => default [] old ++ [item]
    end
  else item :: default [] old.

(** A function object that does not itself carry [callback] and [context]
    properties, so that normalization wraps it. *)
Definition plain_function (hp : heap) (f : loc) : bool :=
  _isFunction hp (VRef f) &&
  negb (_has hp (VRef f) "callback" && _has hp (VRef f) "context").

(** The array [['typeName', 'methodName']] at a location: a two-element
    array of strings that does not also carry both handler keys. *)
Definition type_pair_at (hp : heap) (a : loc) (o : object) (typeName methodName : string)
    : Prop :=
  hp !! a = Some o /\
  o_class o = CArray /\
  o_props o !! "length" = Some (VNumber 2) /\
  o_props o !! "0" = Some (VString typeName) /\
  o_props o !! "1" = Some (VString methodName) /\
  _has hp (VRef a) "callback" && _has hp (VRef a) "context" = false.

(** The array after [handler[0] = Jii.namespace(handler[0])]. *)
Definition resolved_pair (o : object) (t : loc) : object :=
  mkObject (o_class o) (o_proto o) (<["0" := VRef t]> (o_props o)).

(** The array [['app.A', 'm']] as it sits in the sample heap. *)
Definition demo_pair_object : object :=
  mkObject CArray (Some ArrayPrototype)
    (<["length" := VNumber 2]> (props_of [("0", VString "app.A"); ("1", VString "m")])).


(** A recorded call is the call of a binding's handler with its data. *)
Definition call_of (hp : heap) (i : invocation) (b : binding) : Prop :=
  GetV hp (item1 b) "callback" = Ok (VRef (callee i)) /\
  GetV hp (item1 b) "context" = Ok (receiver i) /\
  data (argument i) = item2 b.

(** A value is a normalized handler when it is null or an object with own
    [callback] and [context] properties. *)
Definition is_normalized (hp : heap) (r : value) : Prop :=
  r = VNull \/ _isObject r && _has hp r "callback" && _has hp r "context" = true.

(** Every binding of every list holds a normalized handler. *)
Definition registry_normalized (w : world) : Prop :=
  forall ename items b,
    _events w !! ename = Some items -> In b items -> is_normalized (objects w) (item1 b).

(** [hp'] keeps what [hp] has: every object is still there with its class,
    prototype and own properties, except that element 0 of the object [t] may
    differ. *)
Definition heap_kept (t : value) (hp hp' : heap) : Prop :=
  forall l o, hp !! l = Some o ->
    exists o', hp' !! l = Some o' /\ o_class o' = o_class o /\ o_proto o' = o_proto o /\
               forall k, (VRef l = t -> k <> "0") -> o_props o' !! k = o_props o !! k.

(** Computations whose result, when there is one, is a normalized handler. *)
Definition yields_handler (m : M value) : Prop :=
  forall w r w1, m w = (Ok r, w1) -> is_normalized (objects w1) r.

(** Computations that keep the heap in the sense of [heap_kept]. *)
Definition keeps_heap {A} (t : value) (m : M A) : Prop :=
  forall w, heap_kept t (objects w) (objects (snd (m w))).

(** The array [[fn, contextObject]] at a location: a two-element array of
    a function and an object that does not also carry both handler keys. *)
Definition callable_pair_at (hp : heap) (a : loc) (o : object) (f c : loc) : Prop :=
  hp !! a = Some o /\
  o_class o = CArray /\
  o_props o !! "length" = Some (VNumber 2) /\
  o_props o !! "0" = Some (VRef f) /\
  o_props o !! "1" = Some (VRef c) /\
  _isFunction hp (VRef f) = true /\
  _has hp (VRef a) "callback" && _has hp (VRef a) "context" = false.

(** * Model attribute schema ([ModelAttributeSchema]) *)

(** What [typecast] takes from outside its file: the class [Expression] of
    [data/Expression], which is not among the sources, as a function object of
    the heap; and the global [parseFloat], as a function from the string its
    argument converts to. Numbers being the integers of this model, inputs on
    which [parseFloat] gives a fraction or [NaN] are outside of it. *)
Class Library : Type := mkLibrary {
  Expression : loc;
  parseFloat : string -> Z
}.

(** The [typeof] operator. *)
Definition typeof (hp : heap) (v : value) : string :=
  match v with
  | VUndefined => "undefined"
  | VNull => "object"
  | VBool _ => "boolean"
  | VNumber _ => "number"
  | VString _ => "string"
  | VRef _ => if _isFunction hp v then "function" else "object"
  end.

(** [v instanceof C] for a class [C] without a [Symbol.hasInstance] of its
    own: [C.prototype] is looked for among the prototypes of [v]. *)
Definition instanceof (hp : heap) (v : value) (C : loc) : res bool :=
  match v with
  | VRef _ =>
      res_bind (Get hp C "prototype") (fun P =>
      match P with
      | VRef _ =>
          match levels hp v with
          | Some ls => Ok (existsb (strict_eq P) (tl ls))
          | None => Stuck
          end
      | _ => Err TypeError
      end)
  | _ => Ok false
  end.

(** [String(v)]: the conversion to string, which is also the one property
    keys go through. *)
Definition String_ `{Host} (hp : heap) (v : value) : res string := ToPropertyKey hp v.

Module ModelAttributeSchema.

(** The fields [preInit] declares. *)
Record schema : Type := mkSchema {
  isPrimaryKey : value;
  defaultValue : value;
  jsType : value;
  type : value;
  name : value
}.

(** The instance as [preInit] leaves it. *)
Definition preInit : schema :=
  {| isPrimaryKey := VBool false; defaultValue := VNull; jsType := VNull;
     type := VNull; name := VNull |}.

(** [['text', 'string', 'binary'].indexOf(this.type) !== -1]. *)
Definition textual (ty : value) : bool :=
  existsb (strict_eq ty) [VString "text"; VString "string"; VString "binary"].

(** The [switch] on [this.jsType]. *)
Definition convert `{Host} `{Library} (this : schema) (hp : heap) (v : value) : res value :=
  if strict_eq (jsType this) (VString "string") then
    res_bind (String_ hp v) (fun t => Ok (VString t))
  else if strict_eq (jsType this) (VString "number") then
    match v with
    | VBool b => Ok (VNumber (if b then 1 else 0))
    | _ => res_bind (String_ hp v) (fun t => Ok (VNumber (parseFloat t)))
    end
  else if strict_eq (jsType this) (VString "boolean") then
    Ok (VBool (truthy v))
  else Ok v.

Definition typecast `{Host} `{Library} (this : schema) (hp : heap) (v : value) : res value :=
  if strict_eq v (VString "") && negb (textual (type this)) then Ok VNull
  else if strict_eq v VNull then Ok v
  else if strict_eq (VString (typeof hp v)) (jsType this) then Ok v
  else
    res_bind (instanceof hp v Expression) (fun isExpression =>
    if isExpression then Ok v else convert this hp v).

(** The properties [toJSON] puts into [obj] before it tests for emptiness. *)
Definition set_attributes (this : schema) : list (string * value) :=
  (if negb (strict_eq (defaultValue this) VNull)
   then [("defaultValue", defaultValue this)] else [])
  ++ (if truthy (isPrimaryKey this) then [("isPrimaryKey", isPrimaryKey this)] else [])
  ++ (if negb (strict_eq (jsType this) VNull) then [("jsType", jsType this)] else [])
  ++ (if negb (strict_eq (name this) VNull) then [("name", name this)] else []).

Definition toJSON (this : schema) : M value :=
  let obj := set_attributes this in
  match obj with
  | [] => ret (type this)
  | _ =>
      new_object
        (obj ++ (if negb (strict_eq (type this) VNull) then [("type", type this)] else []))
  end.

End ModelAttributeSchema.

(** A sample library: [Expression] is the class [B] of the sample program,
    and [parseFloat] reads the decimal digits a string starts with. *)
Definition digit_of (c : Ascii.ascii) : option Z :=
  let n := Ascii.nat_of_ascii c in
  if (48 <=? n)%nat && (n <=? 57)%nat then Some (Z.of_nat (n - 48)) else None.

Fixpoint leading_digits (acc : Z) (s : string) : Z :=
  match s with
  | EmptyString => acc
  | String c s' =>
      match digit_of c with
      | Some d => leading_digits (10 * acc + d) s'
      | None => acc
      end
  end.

Definition demo_library : Library :=
  {| Expression := demo_B; parseFloat := leading_digits 0 |}.

(** ** More of the sample program *)

(** A host like [demo_host []] in which the functions listed throw. *)
Definition demo_host_throwing (throwing : list loc) : Host :=
  {| namespace := fun s =>
       if String.eqb s "app.A" then Ok demo_A else Err (Thrown (VString "UnknownType"));
     JSON_stringify := demo_stringify;
     ToString := fun _ _ => Ok "[object Object]";
     Call := fun _ l _ e =>
       if bool_decide (l ∈ throwing) then Err (Thrown (VString "boom")) else Ok e |}.

(** [Event.on(A, 'e', null)]. *)
Definition demo_world_null : world :=
  snd (@on (demo_host []) demo_Event (VRef demo_A) "e" VNull
         VUndefined VUndefined demo_world).

(** The sample heap with the array [[h1, a]] added, and that array. *)
Definition demo_world_pair : world :=
  mkWorld (fst (new_array [VRef demo_h1; VRef demo_a] demo_heap)) ∅.

Definition demo_callable_pair : loc := 24%nat.

Definition demo_callable_pair_object : object :=
  mkObject CArray (Some ArrayPrototype)
    (<["length" := VNumber 2]> (props_of [("0", VRef demo_h1); ("1", VRef demo_a)])).


(** An integer column read as a number. *)
Definition demo_schema : ModelAttributeSchema.schema :=
  ModelAttributeSchema.mkSchema (VBool false) VNull (VString "number") (VString "integer") VNull.

(** [Event.on(A, 'e', h1); Event.on(A, 'e', h2, undefined, false)]. *)
Definition demo_world_prepended : world :=
  snd (@on (demo_host []) demo_Event (VRef demo_A) "e" (VRef demo_h2)
         VUndefined (VBool false) demo_world_A).

(** [C.prototype] in the sample heap. *)
Definition demo_C_prototype : loc := 15%nat.

(** [Event.on(C, 'e', h1); Event.on(C.prototype, 'e', h2)]. *)
Definition demo_world_C_prototype : world :=
  snd (@on (demo_host []) demo_Event (VRef demo_C_prototype) "e" (VRef demo_h2)
         VUndefined VUndefined demo_world_C).

(** The sample heap with the array [['app.Missing', 'm']] added, and that
    array; the sample resolver knows no type of that name. *)
Definition demo_world_unknown : world :=
  mkWorld (fst (new_array [VString "app.Missing"; VString "m"] demo_heap)) ∅.

Definition demo_unknown_pair : loc := 24%nat.

Definition demo_unknown_pair_object : object :=
  mkObject CArray (Some ArrayPrototype)
    (<["length" := VNumber 2]> (props_of [("0", VString "app.Missing"); ("1", VString "m")])).

(** [Event.on(A, 'e', h1); Event.on(B, 'f', h2)]. *)
Definition demo_world_two_names : world :=
  snd (@on (demo_host []) demo_Event (VRef demo_B) "f" (VRef demo_h2)
         VUndefined VUndefined demo_world_A).

(** ** Notions used in the later statements *)

(** The property names an object literal inherits from [Object.prototype].
    The registry is created as [{}], so for these names [this._events[name]]
    is truthy although no list was ever stored; the statements about a name
    without a list leave them out. *)
Definition Object_prototype_names : list string :=
  ["constructor"; "__defineGetter__"; "__defineSetter__"; "hasOwnProperty";
   "__lookupGetter__"; "__lookupSetter__"; "isPrototypeOf"; "propertyIsEnumerable";
   "toString"; "valueOf"; "__proto__"; "toLocaleString"].

Definition inherited_name (name : string) : bool :=
  existsb (String.eqb name) Object_prototype_names.

(** The failures of the pair branch of [normalizeHandler]: a property read
    on null or undefined, or an exception of the namespace resolver or of
    the conversion of an object to a property key. *)
Definition access_failure `{Host} (e : exn) : Prop :=
  e = TypeError \/
  (exists s, namespace s = Err e) \/
  (exists hp l, ToString hp l = Err e).

(** Computations that raise access failures only. *)
Definition fails_in_access `{Host} {A} (m : M A) : Prop :=
  forall w e w1, m w = (Err e, w1) -> access_failure e.

(** * Properties *)

(** ** The heap under allocation *)

Lemma Get_from_mono fuel fuel' hp ext l k v :
  Get_from fuel hp l k = Some v -> (fuel <= fuel')%nat ->
  Get_from fuel' (hp ++ ext) l k = Some v.
Proof.
  revert fuel' l. induction fuel as [|fuel IH]; intros fuel' l Hg Hle; [discriminate|].
  destruct fuel' as [|fuel']; [lia|]. simpl in *.
  destruct (hp !! l) as [o|] eqn:Hl; [|discriminate].
  rewrite (lookup_app_l_Some _ _ _ _ Hl).
  destruct (o_props o !! k); [exact Hg|].
  destruct (o_proto o); [|exact Hg].
  apply IH; [exact Hg|lia].
Qed.

Lemma Get_app hp ext l k v :
  Get hp l k = Ok v -> Get (hp ++ ext) l k = Ok v.
Proof.
  unfold Get. destruct (Get_from (List.length hp) hp l k) as [r|] eqn:Hg; [|discriminate].
  intros [= ->].
  rewrite (Get_from_mono _ (List.length (hp ++ ext)) _ ext _ _ _ Hg); [reflexivity|].
  rewrite length_app. lia.
Qed.

Lemma GetV_app hp ext x k v :
  GetV hp x k = Ok v -> GetV (hp ++ ext) x k = Ok v.
Proof.
  destruct x; simpl; try discriminate; try apply Get_app.
  destruct (string_own s k); [trivial|apply Get_app].
Qed.

Lemma getPrototypeOf_app hp ext x p :
  getPrototypeOf hp x = Ok p -> getPrototypeOf (hp ++ ext) x = Ok p.
Proof.
  destruct x; simpl; try discriminate; trivial.
  destruct (hp !! l) as [o|] eqn:Hl; [|discriminate].
  rewrite (lookup_app_l_Some _ _ _ _ Hl). trivial.
Qed.

Lemma class_of_app hp ext x c :
  class_of hp x = Some c -> class_of (hp ++ ext) x = Some c.
Proof.
  destruct x; simpl; try discriminate.
  destruct (hp !! l) as [o|] eqn:Hl; [|discriminate].
  rewrite (lookup_app_l_Some _ _ _ _ Hl). trivial.
Qed.

Lemma _isFunction_app hp ext x :
  _isFunction hp x = true -> _isFunction (hp ++ ext) x = true.
Proof.
  unfold _isFunction. rewrite !bool_decide_eq_true. apply class_of_app.
Qed.

Lemma levels_from_mono fuel fuel' hp ext v ls :
  levels_from fuel hp v = Some ls -> (fuel <= fuel')%nat ->
  levels_from fuel' (hp ++ ext) v = Some ls.
Proof.
  revert fuel' v ls. induction fuel as [|fuel IH]; intros fuel' v ls Hl Hle; [discriminate|].
  destruct fuel' as [|fuel']; [lia|]. simpl in *.
  destruct (getPrototypeOf hp v) as [p| |] eqn:Hp; try discriminate.
  rewrite (getPrototypeOf_app _ ext _ _ Hp).
  destruct (negb (truthy p)); [exact Hl|].
  destruct (levels_from fuel hp p) as [ls'|] eqn:Hr; [|discriminate].
  rewrite (IH fuel' p ls' Hr); [exact Hl|lia].
Qed.

Lemma levels_app hp ext v ls :
  levels hp v = Some ls -> levels (hp ++ ext) v = Some ls.
Proof.
  unfold levels, walk_bound. intros Hl.
  apply (levels_from_mono _ _ _ _ _ _ Hl). rewrite length_app. lia.
Qed.

(** A fresh object is found where it was allocated. *)
Lemma heap_lookup_alloc (hp : list object) (o : object) :
  (hp ++ [o]) !! List.length hp = Some o.
Proof. induction hp as [|o' hp IH]; simpl; [reflexivity|exact IH]. Qed.

(** An own property is what a read returns. *)
Lemma Get_own hp l o k v :
  hp !! l = Some o -> o_props o !! k = Some v -> Get hp l k = Ok v.
Proof.
  intros Hl Hk. unfold Get.
  pose proof (lookup_lt_Some _ _ _ Hl) as Hlt.
  destruct (List.length hp) as [|n] eqn:Hn; [simpl in Hlt; lia|].
  simpl. rewrite Hl, Hk. reflexivity.
Qed.

(** ** Walks up the prototype chain *)

Lemma levels_from_head fuel hp v ls :
  levels_from fuel hp v = Some ls -> exists tl, ls = v :: tl.
Proof.
  destruct fuel as [|fuel]; [discriminate|]. simpl.
  destruct (getPrototypeOf hp v) as [p| |]; try discriminate.
  destruct (negb (truthy p)).
  - intros [= <-]. eauto.
  - destruct (levels_from fuel hp p); [|discriminate]. intros [= <-]. eauto.
Qed.

Lemma levels_from_det fuel fuel' hp v ls ls' :
  levels_from fuel hp v = Some ls -> levels_from fuel' hp v = Some ls' -> ls = ls'.
Proof.
  revert fuel' v ls ls'.
  induction fuel as [|fuel IH]; intros fuel' v ls ls' H1 H2; [discriminate|].
  destruct fuel' as [|fuel']; [discriminate|]. simpl in *.
  destruct (getPrototypeOf hp v) as [p| |]; try discriminate.
  destruct (negb (truthy p)); [congruence|].
  destruct (levels_from fuel hp p) as [l1|] eqn:E1; [|discriminate].
  destruct (levels_from fuel' hp p) as [l2|] eqn:E2; [|discriminate].
  injection H1 as <-. injection H2 as <-. f_equal. eapply IH; eauto.
Qed.

(** Every level of a walk starts a walk of its own: the rest of the list. *)
Lemma levels_from_suffix fuel hp v ls u :
  levels_from fuel hp v = Some ls -> In u ls ->
  exists fuel' pre suf, ls = pre ++ suf /\ levels_from fuel' hp u = Some suf.
Proof.
  revert v ls. induction fuel as [|fuel IH]; intros v ls Hl Hin; [discriminate|].
  pose proof Hl as Hl0. simpl in Hl.
  destruct (getPrototypeOf hp v) as [p| |]; try discriminate.
  destruct (negb (truthy p)).
  - injection Hl as <-. destruct Hin as [<-|[]].
    exists (S fuel), [], [v]. split; [reflexivity|exact Hl0].
  - destruct (levels_from fuel hp p) as [tl|] eqn:Er; [|discriminate].
    injection Hl as <-. destruct Hin as [<-|Hin].
    + exists (S fuel), [], (v :: tl). split; [reflexivity|exact Hl0].
    + destruct (IH p tl Er Hin) as (f' & pre & suf & -> & Hs).
      exists f', (v :: pre), suf. split; [reflexivity|exact Hs].
Qed.

(** A walk that ends never visits a level twice. *)
Lemma levels_from_NoDup fuel hp v ls :
  levels_from fuel hp v = Some ls -> List.NoDup ls.
Proof.
  revert v ls. induction fuel as [|fuel IH]; intros v ls Hl; [discriminate|].
  pose proof Hl as Hl0. simpl in Hl.
  destruct (getPrototypeOf hp v) as [p| |]; try discriminate.
  destruct (negb (truthy p)).
  - injection Hl as <-. constructor; [intros []|constructor].
  - destruct (levels_from fuel hp p) as [tl|] eqn:Er; [|discriminate].
    injection Hl as <-. constructor; [|eapply IH; eauto].
    intros Hin.
    destruct (levels_from_suffix _ _ _ _ _ Er Hin) as (f' & pre & suf & -> & Hs).
    pose proof (levels_from_det _ _ _ _ _ _ Hl0 Hs) as Heq.
    apply (f_equal (@List.length value)) in Heq.
    simpl in Heq. rewrite length_app in Heq. lia.
Qed.

Lemma levels_NoDup hp v ls : levels hp v = Some ls -> List.NoDup ls.
Proof. apply levels_from_NoDup. Qed.

(** With fuel for the whole chain, [trigger]'s loop is a dispatch over the
    levels. *)
Lemma trigger_loop_dispatch `{Host} fuel hp items v ls event :
  levels_from fuel hp v = Some ls ->
  trigger_loop fuel hp items v event = dispatch hp items ls event.
Proof.
  revert v ls event. induction fuel as [|fuel IH]; intros v ls event Hl; [discriminate|].
  simpl in Hl. simpl trigger_loop.
  destruct (getPrototypeOf hp v) as [p| |] eqn:Hp; try discriminate.
  destruct (negb (truthy p)) eqn:Ht.
  - injection Hl as <-. simpl.
    destruct (forEach hp items v event false) as [calls [[e' h]| |]]; try reflexivity.
    destruct h; [reflexivity|]. rewrite app_nil_r. reflexivity.
  - destruct (levels_from fuel hp p) as [tl|] eqn:Er; [|discriminate].
    injection Hl as <-. simpl.
    destruct (forEach hp items v event false) as [calls [[e' h]| |]]; try reflexivity.
    destruct h; [reflexivity|]. rewrite (IH p tl e' Er). reflexivity.
Qed.

Lemma find_bound_none items v :
  ~ In v (bound_types items) ->
  List.find (fun i => strict_eq (item0 i) v) items = None.
Proof.
  induction items as [|i items IH]; simpl; intros Hn; [reflexivity|].
  unfold strict_eq at 1. rewrite bool_decide_eq_false_2; [|intuition].
  apply IH. intuition.
Qed.

Lemma find_bound_some items v i :
  List.find (fun i => strict_eq (item0 i) v) items = Some i ->
  In i items /\ item0 i = v.
Proof.
  intros Hf. apply find_some in Hf as [Hin Heq]. split; [exact Hin|].
  unfold strict_eq in Heq. apply bool_decide_eq_true in Heq. exact Heq.
Qed.

(** ** One hierarchy level *)

Lemma forEach_handled `{Host} hp items v event :
  forEach hp items v event true = ([], Ok (event, true)).
Proof. induction items as [|i items IH]; simpl; [reflexivity|exact IH]. Qed.

Lemma forEach_no_match `{Host} hp items v event :
  ~ In v (bound_types items) ->
  forEach hp items v event false = ([], Ok (event, false)).
Proof.
  induction items as [|i items IH]; simpl; intros Hn; [reflexivity|].
  unfold strict_eq. rewrite bool_decide_eq_false_2; [|intuition].
  simpl. apply IH. intuition.
Qed.

(** A call is recorded exactly when the function body is entered. *)
Lemma invoke_cases `{Host} hp item event calls r :
  invoke hp item event = (calls, r) ->
  (calls = [] /\ forall e, r <> Ok e) \/
  (exists i, calls = [i] /\ argument i = event /\
             r = Call hp (callee i) (receiver i) (argument i)).
Proof.
  unfold invoke. intros Hi.
  destruct (GetV hp (item1 item) "callback") as [f| |];
    [|injection Hi as <- <-; left; split; [reflexivity|discriminate]..].
  destruct f as [| | | | |l];
    try (injection Hi as <- <-; left; split; [reflexivity|discriminate]);
    destruct (GetV hp (item1 item) "context") as [c| |];
    try (injection Hi as <- <-; left; split; [reflexivity|discriminate]).
  destruct (_isFunction hp (VRef l)).
  - injection Hi as <- <-. right. eexists. split; [reflexivity|]. split; reflexivity.
  - injection Hi as <- <-. left. split; [reflexivity|discriminate].
Qed.

(** ** Cancellation *)

Lemma stops_at_cancel_nil `{Host} hp : stops_at_cancel hp [].
Proof. intros [|j pre] i post Heq; discriminate. Qed.

Lemma stops_at_cancel_one `{Host} hp i : stops_at_cancel hp [i].
Proof.
  intros [|j pre] i' post Heq _.
  - injection Heq as _ <-. reflexivity.
  - injection Heq as _ Heq. destruct pre; discriminate.
Qed.

Lemma stops_at_cancel_app `{Host} hp c1 c2 :
  quiet hp c1 -> stops_at_cancel hp c2 -> stops_at_cancel hp (c1 ++ c2).
Proof.
  intros Hq Hs pre i post Heq Hc.
  symmetry in Heq. apply app_eq_app in Heq as [l [[_ Heq]|[Ha Heq]]].
  - apply (Hs l i post); [exact Heq|exact Hc].
  - destruct l as [|j l].
    + simpl in Heq. apply (Hs [] i post); [symmetry; exact Heq|exact Hc].
    + injection Heq as -> _. rewrite (Hq j) in Hc; [discriminate|].
      rewrite Ha. apply in_or_app. right. left. reflexivity.
Qed.

Lemma forEach_stops `{Host} hp items v event calls r :
  forEach hp items v event false = (calls, r) ->
  stops_at_cancel hp calls /\ (forall e, r = Ok (e, false) -> quiet hp calls).
Proof.
  revert event calls r. induction items as [|it items IH]; simpl; intros event calls r Hf.
  - injection Hf as <- <-. split; [apply stops_at_cancel_nil|intros ? _ ? []].
  - destruct (negb (strict_eq (item0 it) v)); [apply (IH _ _ _ Hf)|].
    destruct (invoke hp it (set_data (item2 it) event)) as [c0 r0] eqn:Hi.
    destruct (invoke_cases _ _ _ _ _ Hi) as [[-> Hn]|(i & -> & Ha & Hr)].
    + destruct r0 as [e0| |]; [destruct (Hn e0); reflexivity|..];
        injection Hf as <- <-; (split; [apply stops_at_cancel_nil|discriminate]).
    + destruct r0 as [e0| |]; [|injection Hf as <- <-; (split; [apply stops_at_cancel_one|discriminate])..].
      assert (Hc : cancelled_by hp i = handled e0) by (unfold cancelled_by; rewrite <- Hr; reflexivity).
      destruct (handled e0) eqn:Hh.
      * rewrite forEach_handled in Hf. injection Hf as <- <-.
        split; [apply stops_at_cancel_one|discriminate].
      * destruct (forEach hp items v e0 false) as [c1 r1] eqn:Hrest.
        injection Hf as <- <-. destruct (IH _ _ _ Hrest) as [Hs Hq].
        assert (Hq0 : quiet hp [i]) by (intros j [<-|[]]; exact Hc).
        split; [apply (stops_at_cancel_app hp [i] c1); assumption|].
        intros e He j [<-|Hj]; [exact Hc|apply (Hq e He), Hj].
Qed.

Lemma trigger_loop_stops `{Host} fuel hp items v event calls r :
  trigger_loop fuel hp items v event = (calls, r) -> stops_at_cancel hp calls.
Proof.
  revert v event calls r. induction fuel as [|fuel IH]; simpl; intros v event calls r Ht.
  - injection Ht as <- _. apply stops_at_cancel_nil.
  - destruct (forEach hp items v event false) as [c0 r0] eqn:Hf.
    destruct (forEach_stops _ _ _ _ _ _ Hf) as [Hs Hq].
    destruct r0 as [[e0 h]| |]; [|injection Ht as <- _; exact Hs..].
    destruct h; [injection Ht as <- _; exact Hs|].
    destruct (getPrototypeOf hp v) as [p| |]; [|injection Ht as <- _; exact Hs..].
    destruct (negb (truthy p)); [injection Ht as <- _; exact Hs|].
    destruct (trigger_loop fuel hp items p e0) as [c1 r1] eqn:Hrec.
    injection Ht as <- _. apply stops_at_cancel_app; [apply (Hq e0 eq_refl)|apply (IH _ _ _ _ Hrec)].
Qed.

(** C3. In every [trigger], a handler call that returns with [handled] set
    to true is the last handler call of that trigger: no later binding of the
    same level and no binding of an ancestor level is invoked after it. *)
Theorem trigger_stops_once_handled `{Host} (w : world) (cls : value) (name : string)
    (event : option Event) (pre post : list invocation) (i : invocation) (e : Event) :
  fst (trigger w cls name event) = pre ++ i :: post ->
  Call (objects w) (callee i) (receiver i) (argument i) = Ok e ->
  handled e = true ->
  post = [].
Proof.
  intros Hlog Hcall Hh.
  assert (Hc : cancelled_by (objects w) i = true) by (unfold cancelled_by; rewrite Hcall; exact Hh).
  assert (Hs : stops_at_cancel (objects w) (fst (trigger w cls name event))).
  { unfold trigger. destruct (_events w !! name) as [items|]; [|apply stops_at_cancel_nil].
    destruct (resolve cls) as [c| |]; [|apply stops_at_cancel_nil..].
    destruct (if _isObject c then GetV (objects w) c "constructor" else Ok c) as [c'| |];
      [|apply stops_at_cancel_nil..].
    match goal with |- context [trigger_loop ?f ?h ?it ?c ?ev] =>
      destruct (trigger_loop f h it c ev) as [calls r] eqn:Ht end.
    simpl. apply (trigger_loop_stops _ _ _ _ _ _ _ Ht). }
  exact (Hs pre i post Hlog Hc).
Qed.

(** ** Normalization *)

Lemma keeps_events_ret {A} (a : A) : keeps_events (ret a).
Proof. intros w. reflexivity. Qed.

Lemma keeps_events_lift {A} (r : res A) : keeps_events (lift r).
Proof. intros w. reflexivity. Qed.

Lemma keeps_events_bind {A B} (m : M A) (k : A -> M B) :
  keeps_events m -> (forall a, keeps_events (k a)) -> keeps_events (bind m k).
Proof.
  intros Hm Hk w. unfold bind. specialize (Hm w).
  destruct (m w) as [[a| |] w1]; simpl in *; [|exact Hm..].
  rewrite (Hk a w1). exact Hm.
Qed.

Lemma keeps_events_getv v k : keeps_events (getv v k).
Proof. intros w. reflexivity. Qed.

Lemma keeps_events_get_heap : keeps_events get_heap.
Proof. intros w. reflexivity. Qed.

Lemma keeps_events_new_object props : keeps_events (new_object props).
Proof. intros w. reflexivity. Qed.

Lemma keeps_events_set_prop t k v : keeps_events (set_prop t k v).
Proof.
  intros w. unfold set_prop. destruct t; try reflexivity.
  destruct (objects w !! l); reflexivity.
Qed.

Ltac keeps_events_step :=
  first
    [ apply keeps_events_ret | apply keeps_events_lift | apply keeps_events_getv
    | apply keeps_events_get_heap | apply keeps_events_new_object
    | apply keeps_events_set_prop
    | apply keeps_events_bind; [|intros ?]
    | match goal with
      | |- keeps_events (if ?b then _ else _) => destruct b
      | |- keeps_events (match ?x with _ => _ end) => destruct x
      end ].

Lemma normalizeHandler_keeps_events `{Host} this handler context :
  keeps_events (normalizeHandler this handler context).
Proof.
  unfold normalizeHandler, is_pair, is_callable_pair, throw.
  repeat keeps_events_step.
Qed.

(** A function that is not itself shaped like a normalized handler is
    wrapped in a fresh object with the given context. *)
Lemma normalizeHandler_function `{Host} this f context w :
  _isFunction (objects w) (VRef f) = true ->
  _has (objects w) (VRef f) "callback" && _has (objects w) (VRef f) "context" = false ->
  normalizeHandler this (VRef f) context w =
    (Ok (VRef (List.length (objects w))),
     mkWorld (objects w ++ [handler_object (if truthy context then context else VNull) (VRef f)])
             (_events w)).
Proof.
  intros Hf Hn. unfold normalizeHandler. cbn [truthy negb _isObject andb].
  unfold bind at 1. unfold get_heap at 1. rewrite Hn.
  assert (Ha : _isArray (objects w) (VRef f) = false).
  { unfold _isFunction, _isArray in *. apply bool_decide_eq_true in Hf.
    apply bool_decide_eq_false. congruence. }
  unfold bind at 1. unfold is_pair at 1. unfold bind at 1. unfold get_heap at 1.
  rewrite Ha. unfold ret at 1. rewrite Hf. reflexivity.
Qed.

(** ** Registration *)

Lemma on_run `{Host} this cls c name handler data isAppend w nh w1 :
  resolve cls = Ok c ->
  normalizeHandler this handler VUndefined w = (Ok nh, w1) ->
  on this cls name handler data isAppend w =
    (Ok tt,
     mkWorld (objects w1)
       (<[name := registered isAppend (_events w !! name) c
                    (mkBinding c nh (if truthy data then data else VNull))]> (_events w))).
Proof.
  intros Hr Hn. unfold on. unfold bind at 1. unfold lift at 1. rewrite Hr.
  unfold bind at 1. rewrite Hn. unfold bind at 1. unfold get_events at 1.
  pose proof (normalizeHandler_keeps_events this handler VUndefined w) as Hk.
  rewrite Hn in Hk. simpl in Hk. rewrite Hk. unfold registered.
  destruct (truthy (if _isUndefined isAppend then VBool true else isAppend)
            || negb (bool_decide (is_Some (_events w !! name)))); [|reflexivity].
  destruct (List.find _ _); reflexivity.
Qed.

Lemma on_fails `{Host} this cls c name handler data isAppend w r w1 :
  resolve cls = Ok c ->
  normalizeHandler this handler VUndefined w = (r, w1) ->
  (forall nh, r <> Ok nh) ->
  _events (snd (on this cls name handler data isAppend w)) = _events w.
Proof.
  intros Hr Hn Hne. unfold on. unfold bind at 1. unfold lift at 1. rewrite Hr.
  unfold bind at 1. rewrite Hn.
  pose proof (normalizeHandler_keeps_events this handler VUndefined w) as Hk.
  rewrite Hn in Hk. simpl in Hk.
  destruct r as [nh| |]; [destruct (Hne nh); reflexivity|exact Hk..].
Qed.

Lemma bindings_insert w hp name l :
  bindings (mkWorld hp (<[name := l]> (_events w))) name = l.
Proof. unfold bindings. simpl. rewrite lookup_insert_eq. reflexivity. Qed.

Lemma find_bound_in items c :
  In c (bound_types items) ->
  exists i, List.find (fun i => strict_eq (item0 i) c) items = Some i.
Proof.
  induction items as [|i items IH]; simpl; [intros []|]. intros Hin.
  unfold strict_eq at 1. destruct (bool_decide (item0 i = c)) eqn:Hd; [eauto|].
  apply bool_decide_eq_false in Hd. destruct Hin as [Heq|Hin]; [contradiction|].
  apply IH, Hin.
Qed.


(** ** Dispatch *)

Lemma forEach_skip `{Host} hp l1 l2 v event h :
  ~ In v (bound_types l1) ->
  forEach hp (l1 ++ l2) v event h = forEach hp l2 v event h.
Proof.
  induction l1 as [|i l1 IH]; simpl; intros Hn; [reflexivity|].
  unfold strict_eq at 1. rewrite bool_decide_eq_false_2; [|intuition].
  simpl negb. rewrite orb_true_r. apply IH. intuition.
Qed.

Lemma forEach_hit `{Host} hp b rest v event :
  item0 b = v ->
  forEach hp (b :: rest) v event false =
    match invoke hp b (set_data (item2 b) event) with
    | (calls, Ok event') =>
        let (calls', r) := forEach hp rest v event' (handled event') in
        (calls ++ calls', r)
    | (calls, Err e) => (calls, Err e)
    | (calls, Stuck) => (calls, Stuck)
    end.
Proof.
  intros Hv. simpl. unfold strict_eq. rewrite bool_decide_eq_true_2; [reflexivity|exact Hv].
Qed.

(** A binding whose handler is a [{context, callback}] object around a
    function is invoked by calling that function on that context. *)
Lemma invoke_handler_object `{Host} hp b n c f event :
  item1 b = VRef n ->
  hp !! n = Some (handler_object c (VRef f)) ->
  _isFunction hp (VRef f) = true ->
  invoke hp b event = ([mkInvocation f c event], Call hp f c event).
Proof.
  intros Hb Hn Hf. unfold invoke. rewrite Hb. simpl GetV.
  rewrite (Get_own hp n _ "callback" (VRef f) Hn eq_refl).
  rewrite (Get_own hp n _ "context" c Hn eq_refl).
  rewrite Hf. reflexivity.
Qed.

(** The only binding of a level in a list: one call, then nothing more at
    this level. *)
Lemma forEach_single `{Host} hp l1 b l2 v event i r :
  ~ In v (bound_types l1) -> ~ In v (bound_types l2) -> item0 b = v ->
  invoke hp b (set_data (item2 b) event) = ([i], r) ->
  forEach hp (l1 ++ b :: l2) v event false =
    ([i], res_bind r (fun e => Ok (e, handled e))).
Proof.
  intros H1 H2 Hb Hi. rewrite (forEach_skip _ _ _ _ _ _ H1), (forEach_hit _ _ _ _ _ Hb), Hi.
  destruct r as [e| |]; try reflexivity. simpl.
  destruct (handled e) eqn:Hh.
  - rewrite forEach_handled. reflexivity.
  - rewrite (forEach_no_match _ _ _ _ H2). reflexivity.
Qed.

Lemma forEach_first `{Host} hp l1 b l2 v event i r :
  ~ In v (bound_types l1) -> item0 b = v ->
  invoke hp b (set_data (item2 b) event) = ([i], r) ->
  exists tl, fst (forEach hp (l1 ++ b :: l2) v event false) = i :: tl.
Proof.
  intros H1 Hb Hi. rewrite (forEach_skip _ _ _ _ _ _ H1), (forEach_hit _ _ _ _ _ Hb), Hi.
  destruct r as [e| |]; [|eexists; reflexivity..].
  destruct (forEach hp l2 v e (handled e)) as [calls' r']. eexists. reflexivity.
Qed.

Lemma dispatch_no_match `{Host} hp items ls event :
  (forall u, In u ls -> ~ In u (bound_types items)) ->
  dispatch hp items ls event = ([], Ok event).
Proof.
  induction ls as [|v ls IH]; simpl; intros Hn; [reflexivity|].
  rewrite forEach_no_match; [|apply Hn; left; reflexivity].
  rewrite IH; [reflexivity|]. intros u Hu. apply Hn. right. exact Hu.
Qed.

(** [trigger] on an object: the walk starts at the object's [constructor]. *)
Lemma trigger_object `{Host} w x name event items c :
  _events w !! name = Some items ->
  GetV (objects w) (VRef x) "constructor" = Ok c ->
  trigger w (VRef x) name event =
    (let (calls, r) :=
       trigger_loop (walk_bound (objects w)) (objects w) items c (prepared name (VRef x) event) in
     (calls, res_bind r (fun e => Ok (Some e)))).
Proof.
  intros He Hc. unfold trigger. rewrite He. cbn [resolve _isObject]. rewrite Hc. reflexivity.
Qed.

Lemma trigger_object_levels `{Host} w x name event items c ls :
  _events w !! name = Some items ->
  GetV (objects w) (VRef x) "constructor" = Ok c ->
  levels (objects w) c = Some ls ->
  trigger w (VRef x) name event =
    (let (calls, r) := dispatch (objects w) items ls (prepared name (VRef x) event) in
     (calls, res_bind r (fun e => Ok (Some e)))).
Proof.
  intros He Hc Hl. rewrite (trigger_object _ _ _ _ _ _ He Hc).
  rewrite (trigger_loop_dispatch _ _ _ _ _ _ Hl). reflexivity.
Qed.

Lemma trigger_object_first `{Host} w x name event items c i tl :
  _events w !! name = Some items ->
  GetV (objects w) (VRef x) "constructor" = Ok c ->
  fst (forEach (objects w) items c (prepared name (VRef x) event) false) = i :: tl ->
  exists tl', fst (trigger w (VRef x) name event) = i :: tl'.
Proof.
  intros He Hc Hf. rewrite (trigger_object _ _ _ _ _ _ He Hc). unfold walk_bound.
  simpl trigger_loop.
  destruct (forEach (objects w) items c (prepared name (VRef x) event) false) as [calls r].
  simpl in Hf. subst calls.
  destruct r as [[e h]| |]; [|eexists; reflexivity..].
  destruct h; [eexists; reflexivity|].
  destruct (getPrototypeOf (objects w) c) as [p| |]; [|eexists; reflexivity..].
  destruct (negb (truthy p)); [eexists; reflexivity|].
  destruct (trigger_loop _ _ _ p e) as [calls' r']. eexists. reflexivity.
Qed.

(** ** Scenarios with function handlers *)

Lemma on_function `{Host} this (A : loc) name h data isAppend w :
  plain_function (objects w) h = true ->
  on this (VRef A) name (VRef h) data isAppend w =
    (Ok tt,
     mkWorld (objects w ++ [handler_object VNull (VRef h)])
       (<[name := registered isAppend (_events w !! name) (VRef A)
                    (mkBinding (VRef A) (VRef (List.length (objects w)))
                       (if truthy data then data else VNull))]> (_events w))).
Proof.
  intros Hp. apply andb_prop in Hp as [Hf Hn]. apply negb_true_iff in Hn.
  exact (on_run this (VRef A) (VRef A) name (VRef h) data isAppend w _ _ eq_refl
           (normalizeHandler_function this h VUndefined w Hf Hn)).
Qed.

Lemma registered_fresh isAppend old c item :
  ~ In c (bound_types (default [] old)) ->
  exists l1 l2, registered isAppend old c item = l1 ++ item :: l2 /\
                bound_types (l1 ++ l2) = bound_types (default [] old).
Proof.
  intros Hn. unfold registered.
  destruct (truthy _ || negb _).
  - rewrite (find_bound_none _ _ Hn). exists (default [] old), [].
    split; [reflexivity|]. rewrite app_nil_r. reflexivity.
  - exists [], (default [] old). split; reflexivity.
Qed.

Lemma levels_tail hp v u ls :
  levels hp v = Some (v :: u :: ls) -> levels hp u = Some (u :: ls).
Proof.
  unfold levels, walk_bound. intros Hv. simpl in Hv.
  destruct (getPrototypeOf hp v) as [p| |]; try discriminate.
  destruct (negb (truthy p)); [discriminate|].
  destruct (levels_from (List.length hp) hp p) as [tl|] eqn:Hl; [|discriminate].
  injection Hv as ->. destruct (levels_from_head _ _ _ _ Hl) as [tl' Heq].
  injection Heq as -> ->.
  pose proof (levels_from_mono _ (S (List.length hp)) _ [] _ _ Hl ltac:(lia)) as Hm.
  rewrite app_nil_r in Hm. exact Hm.
Qed.

Lemma plain_function_app hp ext f :
  plain_function hp f = true -> _isFunction (hp ++ ext) (VRef f) = true.
Proof. intros Hp. apply andb_prop in Hp as [Hf _]. apply _isFunction_app, Hf. Qed.

(** C4. Let the prototype chain of class C be C, B, A and then the rest
    (B's parent is A, C's parent is B), and let the list of the event name
    hold no binding for any class of that chain. After [on] attaches the
    function h to A, [trigger] on an object whose constructor is C calls h
    exactly once and calls nothing else. After [on] attaches h to C instead,
    [trigger] on an object whose constructor is A or B calls nothing. *)
Theorem hierarchy_fan_out `{Host} (w : world) (this A B C h : loc) (rest : list value)
    (name : string) (data isAppend : value) (event : option Event) :
  levels (objects w) (VRef C) = Some (VRef C :: VRef B :: VRef A :: rest) ->
  (forall u, In u (VRef C :: VRef B :: VRef A :: rest) ->
             ~ In u (bound_types (bindings w name))) ->
  plain_function (objects w) h = true ->
  (forall x : loc,
     GetV (objects w) (VRef x) "constructor" = Ok (VRef C) ->
     fst (trigger (snd (on this (VRef A) name (VRef h) data isAppend w)) (VRef x) name event)
     = [mkInvocation h VNull
          (set_data (if truthy data then data else VNull) (prepared name (VRef x) event))]) /\
  (forall x : loc,
     GetV (objects w) (VRef x) "constructor" = Ok (VRef A) \/
     GetV (objects w) (VRef x) "constructor" = Ok (VRef B) ->
     trigger (snd (on this (VRef C) name (VRef h) data isAppend w)) (VRef x) name event
     = ([], Ok (Some (prepared name (VRef x) event)))).
Proof.
  intros Hl Hfree Hp.
  pose proof (levels_NoDup _ _ _ Hl) as Hnd.
  pose proof (levels_tail _ _ _ _ Hl) as HlB.
  pose proof (levels_tail _ _ _ _ HlB) as HlA.
  apply List.NoDup_cons_iff in Hnd as [HC Hnd].
  pose proof Hnd as HndB. apply List.NoDup_cons_iff in Hnd as [HB Hnd].
  apply List.NoDup_cons_iff in Hnd as [HA Hnd].
  set (d := if truthy data then data else VNull).
  set (n := List.length (objects w)).
  split.
  - intros x Hx. rewrite (on_function _ _ _ _ _ _ _ Hp). simpl snd.
    fold d. fold n.
    set (b := mkBinding (VRef A) (VRef n) d).
    destruct (registered_fresh isAppend (_events w !! name) (VRef A) b) as (l1 & l2 & Hreg & Hbt).
    { apply Hfree. right. right. left. reflexivity. }
    rewrite Hreg.
    set (hp' := objects w ++ [handler_object VNull (VRef h)]).
    assert (Hin12 : forall u, In u (bound_types l1) \/ In u (bound_types l2) ->
                              In u (bound_types (bindings w name))).
    { intros u Hu. unfold bindings. rewrite <- Hbt. unfold bound_types. rewrite map_app.
      apply in_or_app. exact Hu. }
    assert (Hother : forall u, u <> VRef A -> In u (VRef C :: VRef B :: VRef A :: rest) ->
                               ~ In u (bound_types (l1 ++ b :: l2))).
    { intros u Hne Hu Hin. unfold bound_types in Hin. rewrite map_app in Hin.
      apply in_app_or in Hin as [Hin|[Hin|Hin]].
      - apply (Hfree u Hu), Hin12. left. exact Hin.
      - apply Hne. symmetry. exact Hin.
      - apply (Hfree u Hu), Hin12. right. exact Hin. }
    rewrite (trigger_object_levels _ x name event (l1 ++ b :: l2) (VRef C)
               (VRef C :: VRef B :: VRef A :: rest)).
    + simpl dispatch.
      rewrite forEach_no_match.
      2:{ apply Hother; [|left; reflexivity]. intros Heq. apply HC. rewrite Heq.
          right. left. reflexivity. }
      rewrite forEach_no_match.
      2:{ apply Hother; [|right; left; reflexivity]. intros Heq. apply HB. rewrite Heq.
          left. reflexivity. }
      rewrite (forEach_single hp' l1 b l2 (VRef A) _
                 (mkInvocation h VNull (set_data d (prepared name (VRef x) event)))
                 (Call hp' h VNull (set_data d (prepared name (VRef x) event)))).
      * destruct (Call hp' h VNull _) as [e| |]; try reflexivity. simpl res_bind. cbv iota.
        destruct (handled e); [reflexivity|].
        rewrite dispatch_no_match; [reflexivity|].
        intros u Hu. apply Hother; [|right; right; right; exact Hu].
        intros ->. contradiction.
      * intros Hin. apply (Hfree (VRef A)); [right; right; left; reflexivity|].
        apply Hin12. left. exact Hin.
      * intros Hin. apply (Hfree (VRef A)); [right; right; left; reflexivity|].
        apply Hin12. right. exact Hin.
      * reflexivity.
      * apply (invoke_handler_object hp' b n VNull h); [reflexivity| |].
        -- apply heap_lookup_alloc.
        -- apply plain_function_app, Hp.
    + simpl. apply lookup_insert_eq.
    + apply GetV_app, Hx.
    + apply levels_app, Hl.
  - intros x Hx. rewrite (on_function _ _ _ _ _ _ _ Hp). simpl snd. fold d. fold n.
    set (b := mkBinding (VRef C) (VRef n) d).
    destruct (registered_fresh isAppend (_events w !! name) (VRef C) b) as (l1 & l2 & Hreg & Hbt).
    { apply Hfree. left. reflexivity. }
    rewrite Hreg.
    assert (Hno : forall u, In u (VRef B :: VRef A :: rest) ->
                            ~ In u (bound_types (l1 ++ b :: l2))).
    { intros u Hu Hin. unfold bound_types in Hin. rewrite map_app in Hin.
      assert (Hin12 : In u (bound_types (bindings w name)) \/ VRef C = u).
      { unfold bindings. rewrite <- Hbt. unfold bound_types. rewrite map_app.
        apply in_app_or in Hin as [Hin|[Hin|Hin]].
        - left. apply in_or_app. left. exact Hin.
        - right. exact Hin.
        - left. apply in_or_app. right. exact Hin. }
      destruct Hin12 as [Hin12|<-]; [|contradiction].
      apply (Hfree u); [right; exact Hu|exact Hin12]. }
    destruct Hx as [Hx|Hx].
    + rewrite (trigger_object_levels _ x name event (l1 ++ b :: l2) (VRef A) (VRef A :: rest)).
      * rewrite dispatch_no_match; [reflexivity|].
        intros u Hu. apply Hno. right. exact Hu.
      * simpl. apply lookup_insert_eq.
      * apply GetV_app, Hx.
      * apply levels_app, HlA.
    + rewrite (trigger_object_levels _ x name event (l1 ++ b :: l2) (VRef B)
                 (VRef B :: VRef A :: rest)).
      * rewrite dispatch_no_match; [reflexivity|exact Hno].
      * simpl. apply lookup_insert_eq.
      * apply GetV_app, Hx.
      * apply levels_app, HlB.
Qed.

Lemma _has_app hp ext f k :
  _isFunction hp (VRef f) = true -> _has (hp ++ ext) (VRef f) k = _has hp (VRef f) k.
Proof.
  unfold _isFunction, class_of, _has. intros Hf. apply bool_decide_eq_true in Hf.
  destruct (hp !! f) as [o|] eqn:Hl; [|discriminate].
  rewrite (lookup_app_l_Some _ _ _ _ Hl). reflexivity.
Qed.

Lemma plain_function_alloc hp ext f :
  plain_function hp f = true -> plain_function (hp ++ ext) f = true.
Proof.
  unfold plain_function. intros Hp. apply andb_prop in Hp as [Hf Hn].
  rewrite (_isFunction_app _ _ _ Hf), !(_has_app _ _ _ _ Hf). exact Hn.
Qed.

(** The calls of the first level open the log of a [trigger] on an object. *)
Lemma trigger_object_prefix `{Host} w x name event items c :
  _events w !! name = Some items ->
  GetV (objects w) (VRef x) "constructor" = Ok c ->
  exists tl, fst (trigger w (VRef x) name event) =
             fst (forEach (objects w) items c (prepared name (VRef x) event) false) ++ tl.
Proof.
  intros He Hc. rewrite (trigger_object _ _ _ _ _ _ He Hc). unfold walk_bound.
  simpl trigger_loop.
  destruct (forEach (objects w) items c (prepared name (VRef x) event) false) as [calls r].
  simpl fst.
  destruct r as [[e h]| |]; [|exists []; rewrite app_nil_r; reflexivity..].
  destruct h; [exists []; rewrite app_nil_r; reflexivity|].
  destruct (getPrototypeOf (objects w) c) as [p| |];
    [|exists []; rewrite app_nil_r; reflexivity..].
  destruct (negb (truthy p)); [exists []; rewrite app_nil_r; reflexivity|].
  destruct (trigger_loop _ _ _ p e) as [calls' r']. exists calls'. reflexivity.
Qed.

Lemma registered_prepend isAppend old c item :
  _isUndefined isAppend = false -> truthy isAppend = false ->
  registered isAppend old c item = item :: default [] old.
Proof.
  intros Hu Ht. unfold registered. rewrite Hu, Ht.
  destruct old as [items|]; reflexivity.
Qed.

(** Prepending. With isAppend given and falsy, [on] puts the new binding at
    the front of the list of the name, whether or not the class is already
    bound there. Hence, after [on] attaches the function h1 to A in append
    mode and then h2 to A in prepend mode, a [trigger] on an object whose
    constructor is A calls h2 first; and when h1 was registered (A had no
    binding before) and h2 returns without setting [handled], the next call
    is h1. *)
Lemma on_prepend_runs_first `{Host} (w : world) (this : loc) (name : string)
    (isAppend : value) :
  _isUndefined isAppend = false ->
  truthy isAppend = false ->
  (forall (cls c handler data nh : value) (w1 : world),
     resolve cls = Ok c ->
     normalizeHandler this handler VUndefined w = (Ok nh, w1) ->
     bindings (snd (on this cls name handler data isAppend w)) name =
       mkBinding c nh (if truthy data then data else VNull) :: bindings w name) /\
  (forall (A h1 h2 x : loc) (d1 d2 : value) (event : option Event),
     plain_function (objects w) h1 = true ->
     plain_function (objects w) h2 = true ->
     GetV (objects w) (VRef x) "constructor" = Ok (VRef A) ->
     let w1 := snd (on this (VRef A) name (VRef h1) d1 VUndefined w) in
     let w2 := snd (on this (VRef A) name (VRef h2) d2 isAppend w1) in
     let first := mkInvocation h2 VNull
                    (set_data (if truthy d2 then d2 else VNull) (prepared name (VRef x) event)) in
     exists tl,
       fst (trigger w2 (VRef x) name event) = first :: tl /\
       (~ In (VRef A) (bound_types (bindings w name)) ->
        forall e, Call (objects w2) h2 VNull (argument first) = Ok e ->
                  handled e = false ->
        exists tl',
          tl = mkInvocation h1 VNull (set_data (if truthy d1 then d1 else VNull) e) :: tl')).
Proof.
  intros Hu Ht. split.
  - intros cls c handler data nh w1 Hr Hn.
    rewrite (on_run _ _ _ _ _ _ _ _ _ _ Hr Hn). simpl snd. rewrite bindings_insert.
    apply registered_prepend; assumption.
  - intros A h1 h2 x d1 d2 event Hp1 Hp2 Hx w1 w2 first.
    subst w1 w2. rewrite (on_function _ _ _ _ _ _ _ Hp1) in *. simpl snd in *.
    set (o1 := handler_object VNull (VRef h1)) in *.
    set (n1 := List.length (objects w)) in *.
    set (b1 := mkBinding (VRef A) (VRef n1) (if truthy d1 then d1 else VNull)) in *.
    set (items1 := registered VUndefined (_events w !! name) (VRef A) b1) in *.
    set (w1 := mkWorld (objects w ++ [o1]) (<[name := items1]> (_events w))) in *.
    assert (Hp2' : plain_function (objects w1) h2 = true) by (apply plain_function_alloc, Hp2).
    rewrite (on_function _ _ _ _ _ _ _ Hp2') in *. simpl snd in *.
    set (o2 := handler_object VNull (VRef h2)) in *.
    set (n2 := List.length (objects w ++ [o1])) in *.
    set (b2 := mkBinding (VRef A) (VRef n2) (if truthy d2 then d2 else VNull)) in *.
    rewrite lookup_insert_eq in *.
    rewrite (registered_prepend _ _ _ _ Hu Ht) in *. simpl default in *.
    set (hp2 := (objects w ++ [o1]) ++ [o2]) in *.
    set (w2 := mkWorld hp2 _) in *.
    assert (He2 : _events w2 !! name = Some (b2 :: items1)) by (simpl; apply lookup_insert_eq).
    assert (Hx2 : GetV (objects w2) (VRef x) "constructor" = Ok (VRef A))
      by (apply (GetV_app (objects w ++ [o1]) [o2] (VRef x)), GetV_app, Hx).
    destruct (trigger_object_prefix w2 x name event _ _ He2 Hx2) as [tl0 Htr].
    rewrite Htr. simpl objects.
    rewrite (forEach_hit hp2 b2 items1 (VRef A) _ eq_refl).
    assert (Hi2 : invoke hp2 b2 (set_data (item2 b2) (prepared name (VRef x) event))
                  = ([first], Call hp2 h2 VNull (argument first))).
    { apply (invoke_handler_object hp2 b2 n2 VNull h2); [reflexivity| |].
      - apply heap_lookup_alloc.
      - apply plain_function_app. exact Hp2'. }
    rewrite Hi2.
    destruct (Call hp2 h2 VNull (argument first)) as [e| |] eqn:Hcall.
    + destruct (forEach hp2 items1 (VRef A) e (handled e)) as [calls' r'] eqn:Hrest.
      simpl fst. exists (calls' ++ tl0). split; [reflexivity|].
      intros Hfresh e' [= <-] Hh. rewrite Hh in Hrest.
      unfold items1, registered in Hrest. simpl in Hrest.
      fold (bindings w name) in Hrest. rewrite (find_bound_none _ _ Hfresh) in Hrest.
      destruct (forEach_first hp2 (bindings w name) b1 [] (VRef A) e
                  (mkInvocation h1 VNull (set_data (item2 b1) e))
                  (Call hp2 h1 VNull (set_data (item2 b1) e)) Hfresh eq_refl) as [tl1 Hf1].
      { apply (invoke_handler_object hp2 b1 n1 VNull h1); [reflexivity| |].
        - unfold hp2. apply lookup_app_l_Some. apply heap_lookup_alloc.
        - unfold hp2. apply _isFunction_app. apply plain_function_app. exact Hp1. }
      rewrite Hrest in Hf1. simpl in Hf1. subst calls'. eexists. reflexivity.
    + simpl fst. exists tl0. split; [reflexivity|]. intros _ e' [=].
    + simpl fst. exists tl0. split; [reflexivity|]. intros _ e' [=].
Qed.

(** ** [hasHandlers] against [trigger] on an instance *)

Lemma invoke_function `{Host} hp b c f event :
  GetV hp (item1 b) "callback" = Ok (VRef f) ->
  GetV hp (item1 b) "context" = Ok c ->
  _isFunction hp (VRef f) = true ->
  invoke hp b event = ([mkInvocation f c event], Call hp f c event).
Proof. intros Hcb Hc Hf. unfold invoke. rewrite Hcb, Hc, Hf. reflexivity. Qed.

Lemma find_existsb {A} (p : A -> bool) (l : list A) :
  match List.find p l with Some _ => existsb p l = true | None => existsb p l = false end.
Proof.
  induction l as [|x l IH]; simpl; [reflexivity|].
  destruct (p x); [reflexivity|exact IH].
Qed.

Lemma hasHandlers_loop_levels fuel hp items v ls :
  levels_from fuel hp v = Some ls ->
  hasHandlers_loop fuel hp items v =
    Ok (existsb (fun u => existsb (fun i => strict_eq (item0 i) u) items) ls).
Proof.
  revert v ls. induction fuel as [|fuel IH]; intros v ls Hl; [discriminate|].
  simpl in Hl. simpl hasHandlers_loop.
  pose proof (find_existsb (fun i => strict_eq (item0 i) v) items) as Hf.
  destruct (getPrototypeOf hp v) as [p| |]; try discriminate.
  cbn [res_bind]. destruct (negb (truthy p)).
  - injection Hl as <-. simpl. destruct (List.find _ items); rewrite Hf; reflexivity.
  - destruct (levels_from fuel hp p) as [tl|] eqn:Er; [|discriminate]. injection Hl as <-.
    simpl. destruct (List.find _ items); rewrite Hf; [reflexivity|].
    simpl. apply IH, Er.
Qed.

Lemma bound_existsb (items : list binding) (ls : list value) :
  existsb (fun u => existsb (fun i => strict_eq (item0 i) u) items) ls = true <->
  exists u, In u ls /\ In u (bound_types items).
Proof.
  rewrite existsb_exists. split.
  - intros (u & Hu & Hb). apply existsb_exists in Hb as (i & Hi & He).
    apply bool_decide_eq_true in He. exists u. split; [exact Hu|].
    subst u. unfold bound_types. apply in_map, Hi.
  - intros (u & Hu & Hb). exists u. split; [exact Hu|].
    unfold bound_types in Hb. apply in_map_iff in Hb as (i & <- & Hi).
    apply existsb_exists. exists i. split; [exact Hi|].
    apply bool_decide_eq_true. reflexivity.
Qed.

(** C9 (as the code has it). [hasHandlers] does not replace an instance by
    its constructor: it walks the instance itself and then the objects of
    its prototype chain, and answers true exactly when one of them is the
    bound type of a binding of the name. So with bindings on the class C
    only it answers false, and it answers true as soon as the instance or an
    object of its chain is bound. [trigger] on the same instance, whose
    constructor is C, calls the handler of the first binding for C. *)
Theorem hasHandlers_compares_the_instance_chain `{Host} (w : world) (x : loc)
    (name : string) (ls : list value) (items : list binding) :
  levels (objects w) (VRef x) = Some ls ->
  _events w !! name = Some items ->
  (exists tl, ls = VRef x :: tl) /\
  hasHandlers w (VRef x) name =
    Ok (existsb (fun u => existsb (fun i => strict_eq (item0 i) u) items) ls) /\
  ((forall u, In u ls -> ~ In u (bound_types items)) ->
   hasHandlers w (VRef x) name = Ok false) /\
  (forall u, In u ls -> In u (bound_types items) ->
   hasHandlers w (VRef x) name = Ok true) /\
  (forall (C : loc) (l1 l2 : list binding) (b : binding) (f : loc) (c : value)
          (event : option Event),
     GetV (objects w) (VRef x) "constructor" = Ok (VRef C) ->
     items = l1 ++ b :: l2 ->
     item0 b = VRef C ->
     ~ In (VRef C) (bound_types l1) ->
     GetV (objects w) (item1 b) "callback" = Ok (VRef f) ->
     GetV (objects w) (item1 b) "context" = Ok c ->
     _isFunction (objects w) (VRef f) = true ->
     exists tl,
       fst (trigger w (VRef x) name event) =
       mkInvocation f c (set_data (item2 b) (prepared name (VRef x) event)) :: tl).
Proof.
  intros Hl He.
  assert (Hhas : hasHandlers w (VRef x) name =
            Ok (existsb (fun u => existsb (fun i => strict_eq (item0 i) u) items) ls)).
  { unfold hasHandlers. rewrite He. cbn [resolve res_bind].
    apply hasHandlers_loop_levels, Hl. }
  split; [exact (levels_from_head _ _ _ _ Hl)|]. split; [exact Hhas|].
  split; [|split].
  - intros Hnone. rewrite Hhas. f_equal.
    destruct (existsb _ ls) eqn:Hex; [|reflexivity].
    apply bound_existsb in Hex as (u & Hu & Hb). destruct (Hnone u Hu Hb).
  - intros u Hu Hb. rewrite Hhas. f_equal. apply bound_existsb. exists u. split; assumption.
  - intros C l1 l2 b f c event Hx -> Hb Hfirst Hcb Hc Hf.
    destruct (forEach_first (objects w) l1 b l2 (VRef C) (prepared name (VRef x) event)
                _ _ Hfirst Hb (invoke_function _ _ _ _ _ Hcb Hc Hf)) as [tl0 Htl].
    exact (trigger_object_first w x name event _ _ _ _ He Hx Htl).
Qed.

(** ** The pair form [[typeName, methodName]] *)

Lemma heap_lookup_insert (hp : list object) (a : loc) (o o' : object) :
  hp !! a = Some o -> <[a := o']> hp !! a = Some o'.
Proof. intros Hl. apply list_lookup_insert_eq. eapply lookup_lt_Some, Hl. Qed.

Lemma bind_ok {A B} (m : M A) (k : A -> M B) w a w1 :
  m w = (Ok a, w1) -> bind m k w = k a w1.
Proof. intros Hm. unfold bind. rewrite Hm. reflexivity. Qed.

Lemma getv_ok v k w r : GetV (objects w) v k = Ok r -> getv v k w = (Ok r, w).
Proof. intros Hg. unfold getv. rewrite Hg. reflexivity. Qed.

Lemma normalizeHandler_type_pair `{Host} this a o tn mn t context w :
  type_pair_at (objects w) a o tn mn ->
  namespace tn = Ok t ->
  objects (snd (normalizeHandler this (VRef a) context w)) !! a = Some (resolved_pair o t).
Proof.
  intros (Ha & Hc & Hlen & H0 & H1 & Hn) Hns.
  assert (Glen : getv (VRef a) "length" w = (Ok (VNumber 2), w))
    by (apply getv_ok, (Get_own _ _ _ _ _ Ha Hlen)).
  assert (G0 : getv (VRef a) "0" w = (Ok (VString tn), w))
    by (apply getv_ok, (Get_own _ _ _ _ _ Ha H0)).
  assert (Harr : _isArray (objects w) (VRef a) = true).
  { unfold _isArray, class_of. rewrite Ha. simpl. rewrite Hc. reflexivity. }
  assert (Hpair : is_pair (VRef a) w = (Ok true, w)).
  { unfold is_pair. rewrite (bind_ok get_heap _ w (objects w) w eq_refl), Harr.
    rewrite (bind_ok _ _ _ _ _ Glen). reflexivity. }
  assert (Hcp : is_callable_pair (VRef a) w = (Ok false, w)).
  { unfold is_callable_pair. rewrite (bind_ok _ _ _ _ _ G0).
    rewrite (bind_ok get_heap _ w (objects w) w eq_refl). reflexivity. }
  set (hp1 := <[a := resolved_pair o t]> (objects w)).
  set (w1 := mkWorld hp1 (_events w)).
  assert (Hset : (let* t := lift (namespace tn) in set_prop (VRef a) "0" (VRef t)) w
                 = (Ok tt, w1)).
  { rewrite (bind_ok (lift (namespace tn)) _ w t w) by (unfold lift; rewrite Hns; reflexivity).
    unfold set_prop. rewrite Ha. reflexivity. }
  assert (Ha1 : hp1 !! a = Some (resolved_pair o t)) by (eapply heap_lookup_insert, Ha).
  assert (G0' : getv (VRef a) "0" w1 = (Ok (VRef t), w1)).
  { apply getv_ok, (Get_own _ _ _ _ _ Ha1). simpl. apply lookup_insert_eq. }
  assert (G1' : getv (VRef a) "1" w1 = (Ok (VString mn), w1)).
  { apply getv_ok, (Get_own _ _ _ _ _ Ha1). simpl.
    rewrite lookup_insert_ne by discriminate. exact H1. }
  unfold normalizeHandler. cbn [truthy negb _isObject andb].
  rewrite (bind_ok get_heap _ w (objects w) w eq_refl), Hn.
  rewrite (bind_ok _ _ _ _ _ Hpair), (bind_ok _ _ _ _ _ Hcp), (bind_ok _ _ _ _ _ G0).
  rewrite (bind_ok _ _ _ _ _ Hset).
  rewrite (bind_ok _ _ _ _ _ G0'), (bind_ok _ _ _ _ _ G0'), (bind_ok _ _ _ _ _ G1').
  rewrite (bind_ok get_heap _ w1 (objects w1) w1 eq_refl).
  unfold bind, lift.
  destruct (GetV_computed (objects w1) (VRef t) (VString mn)) as [f| |]; try exact Ha1.
  unfold new_object. cbn [snd objects]. apply lookup_app_l_Some, Ha1.
Qed.

Lemma on_objects `{Host} this cls c name handler data isAppend w :
  resolve cls = Ok c ->
  objects (snd (on this cls name handler data isAppend w)) =
  objects (snd (normalizeHandler this handler VUndefined w)).
Proof.
  intros Hr. unfold on.
  rewrite (bind_ok (lift (resolve cls)) _ w c w) by (unfold lift; rewrite Hr; reflexivity).
  unfold bind at 1.
  destruct (normalizeHandler this handler VUndefined w) as [[nh| |] w1]; try reflexivity.
  unfold bind, get_events.
  destruct (truthy _ || negb _); [|reflexivity].
  destruct (List.find _ _); reflexivity.
Qed.

Lemma off_objects `{Host} this cls c name handler w :
  resolve cls = Ok c ->
  truthy handler = true ->
  objects (snd (off this cls name handler w)) =
  objects (snd (normalizeHandler this handler VUndefined w)).
Proof.
  intros Hr Ht. unfold off. rewrite Ht.
  rewrite (bind_ok (lift (resolve cls)) _ w c w) by (unfold lift; rewrite Hr; reflexivity).
  unfold bind at 1.
  destruct (normalizeHandler this handler VUndefined w) as [[nh| |] w1]; try reflexivity.
  unfold bind at 1. unfold get_events at 1.
  destruct (_events w1 !! name) as [items|]; [|reflexivity].
  unfold bind at 1. unfold get_heap at 1. unfold bind at 1. unfold lift at 1.
  destruct (filter_res _ items) as [kept| |]; reflexivity.
Qed.

Lemma normalizeHandler_type_pair_unresolved `{Host} this a o tn mn e context w :
  type_pair_at (objects w) a o tn mn ->
  namespace tn = Err e ->
  normalizeHandler this (VRef a) context w = (Err e, w).
Proof.
  intros (Ha & Hc & Hlen & H0 & H1 & Hn) Hns.
  assert (Glen : getv (VRef a) "length" w = (Ok (VNumber 2), w))
    by (apply getv_ok, (Get_own _ _ _ _ _ Ha Hlen)).
  assert (G0 : getv (VRef a) "0" w = (Ok (VString tn), w))
    by (apply getv_ok, (Get_own _ _ _ _ _ Ha H0)).
  assert (Harr : _isArray (objects w) (VRef a) = true).
  { unfold _isArray, class_of. rewrite Ha. simpl. rewrite Hc. reflexivity. }
  assert (Hpair : is_pair (VRef a) w = (Ok true, w)).
  { unfold is_pair. rewrite (bind_ok get_heap _ w (objects w) w eq_refl), Harr.
    rewrite (bind_ok _ _ _ _ _ Glen). reflexivity. }
  assert (Hcp : is_callable_pair (VRef a) w = (Ok false, w)).
  { unfold is_callable_pair. rewrite (bind_ok _ _ _ _ _ G0).
    rewrite (bind_ok get_heap _ w (objects w) w eq_refl). reflexivity. }
  unfold normalizeHandler. cbn [truthy negb _isObject andb].
  rewrite (bind_ok get_heap _ w (objects w) w eq_refl), Hn.
  rewrite (bind_ok _ _ _ _ _ Hpair), (bind_ok _ _ _ _ _ Hcp), (bind_ok _ _ _ _ _ G0).
  unfold bind, lift. rewrite Hns. reflexivity.
Qed.

Lemma on_raises `{Host} this cls c name handler data isAppend w e w1 :
  resolve cls = Ok c ->
  normalizeHandler this handler VUndefined w = (Err e, w1) ->
  on this cls name handler data isAppend w = (Err e, w1).
Proof.
  intros Hr Hn. unfold on.
  rewrite (bind_ok (lift (resolve cls)) _ w c w) by (unfold lift; rewrite Hr; reflexivity).
  unfold bind at 1. rewrite Hn. reflexivity.
Qed.

Lemma off_raises `{Host} this cls c name handler w e w1 :
  resolve cls = Ok c ->
  normalizeHandler this (if truthy handler then handler else VNull) VUndefined w
    = (Err e, w1) ->
  off this cls name handler w = (Err e, w1).
Proof.
  intros Hr Hn. unfold off.
  rewrite (bind_ok (lift (resolve cls)) _ w c w) by (unfold lift; rewrite Hr; reflexivity).
  unfold bind at 1. rewrite Hn. reflexivity.
Qed.

Lemma on_unresolved `{Host} this cls name handler data isAppend w e :
  resolve cls = Err e -> on this cls name handler data isAppend w = (Err e, w).
Proof. intros Hr. unfold on, bind, lift. rewrite Hr. reflexivity. Qed.

Lemma off_unresolved `{Host} this cls name handler w e :
  resolve cls = Err e -> off this cls name handler w = (Err e, w).
Proof. intros Hr. unfold off, bind, lift. rewrite Hr. reflexivity. Qed.

(** C10 (as the code has it). Normalizing the pair form
    [[typeName, methodName]] writes into the caller's array when the names
    resolve: if the namespace resolver resolves typeName to the type object
    t, then after [normalizeHandler], and after [on] and [off] called with
    that array as handler and a class argument that resolves, the array's
    element 0 is t and no longer the string, whether or not the rest of the
    call succeeds. If the resolver raises on typeName, or on the class name
    given to [on] or [off], the call raises that exception and the array,
    like the rest of the world, is as it was. *)
Theorem pair_form_mutates_array `{Host} (w : world) (this a : loc) (o : object)
    (typeName methodName : string) :
  type_pair_at (objects w) a o typeName methodName ->
  (forall t : loc,
     namespace typeName = Ok t ->
     o_props (resolved_pair o t) !! "0" = Some (VRef t) /\
     VRef t <> VString typeName /\
     (forall context,
        objects (snd (normalizeHandler this (VRef a) context w)) !! a
        = Some (resolved_pair o t)) /\
     (forall cls c name data isAppend,
        resolve cls = Ok c ->
        objects (snd (on this cls name (VRef a) data isAppend w)) !! a
        = Some (resolved_pair o t)) /\
     (forall cls c name,
        resolve cls = Ok c ->
        objects (snd (off this cls name (VRef a) w)) !! a = Some (resolved_pair o t))) /\
  (forall e : exn,
     namespace typeName = Err e ->
     (forall context, normalizeHandler this (VRef a) context w = (Err e, w)) /\
     (forall cls c name data isAppend,
        resolve cls = Ok c ->
        on this cls name (VRef a) data isAppend w = (Err e, w)) /\
     (forall cls c name,
        resolve cls = Ok c ->
        off this cls name (VRef a) w = (Err e, w))) /\
  (forall (cls : value) (e : exn) name data isAppend,
     resolve cls = Err e ->
     on this cls name (VRef a) data isAppend w = (Err e, w) /\
     off this cls name (VRef a) w = (Err e, w)).
Proof.
  intros Hp. split; [|split].
  - intros t Hns. split; [apply lookup_insert_eq|]. split; [discriminate|].
    split; [|split].
    + intros context. eapply normalizeHandler_type_pair; eauto.
    + intros cls c name data isAppend Hr. rewrite (on_objects _ _ _ _ _ _ _ _ Hr).
      eapply normalizeHandler_type_pair; eauto.
    + intros cls c name Hr. rewrite (off_objects this cls c name (VRef a) w Hr eq_refl).
      eapply normalizeHandler_type_pair; eauto.
  - intros e Hns. split; [|split].
    + intros context. eapply normalizeHandler_type_pair_unresolved; eauto.
    + intros cls c name data isAppend Hr. apply (on_raises _ _ c); [exact Hr|].
      eapply normalizeHandler_type_pair_unresolved; eauto.
    + intros cls c name Hr. apply (off_raises _ _ c); [exact Hr|].
      cbn [truthy]. eapply normalizeHandler_type_pair_unresolved; eauto.
  - intros cls e name data isAppend Hr. split.
    + apply on_unresolved, Hr.
    + apply off_unresolved, Hr.
Qed.

(** ** Bare method names *)

Lemma normalizeHandler_string `{Host} this s context w f :
  s <> "" ->
  Get (objects w) this s = Ok f ->
  normalizeHandler this (VString s) context w =
    (Ok (VRef (List.length (objects w))),
     mkWorld (objects w ++ [handler_object (if truthy context then context else VNull) f])
             (_events w)).
Proof.
  intros Hs Hg. unfold normalizeHandler. cbn [truthy].
  rewrite (proj2 (String.eqb_neq s "") Hs). cbn [negb _isObject andb].
  rewrite (bind_ok get_heap _ w (objects w) w eq_refl).
  rewrite (bind_ok (is_pair (VString s)) _ w false w) by reflexivity.
  rewrite (bind_ok (getv (VRef this) s) _ w f w) by (apply getv_ok, Hg).
  reflexivity.
Qed.

(** C5 (as the code has it). A bare method name is looked up on the class
    the static method was called on ([this]); the context of the result is the
    context argument of [normalizeHandler], or null when it is omitted or
    falsy. [on] passes no context, so a handler registered by name has
    context null and callback [this[name]]. *)
Theorem string_handler_uses_receiver_and_null_context `{Host} (w : world) (this : loc)
    (s : string) (f : value) :
  s <> "" ->
  Get (objects w) this s = Ok f ->
  (forall context,
     normalizeHandler this (VString s) context w =
       (Ok (VRef (List.length (objects w))),
        mkWorld (objects w ++ [handler_object (if truthy context then context else VNull) f])
                (_events w))) /\
  (forall cls c name data isAppend,
     resolve cls = Ok c ->
     on this cls name (VString s) data isAppend w =
       (Ok tt,
        mkWorld (objects w ++ [handler_object VNull f])
          (<[name := registered isAppend (_events w !! name) c
                       (mkBinding c (VRef (List.length (objects w)))
                          (if truthy data then data else VNull))]> (_events w)))).
Proof.
  intros Hs Hg. split.
  - intros context. apply normalizeHandler_string; assumption.
  - intros cls c name data isAppend Hr.
    exact (on_run this cls c name (VString s) data isAppend w _ _ Hr
             (normalizeHandler_string this s VUndefined w f Hs Hg)).
Qed.

(** ** Rejected and ignored inputs *)

Lemma GetV_err hp v k e : GetV hp v k = Err e -> e = TypeError.
Proof.
  unfold GetV, Get. intros Hg.
  destruct v as [| |b|z|s|l]; try congruence.
  - destruct (Get_from _ hp BooleanPrototype k); discriminate.
  - destruct (Get_from _ hp NumberPrototype k); discriminate.
  - destruct (string_own s k); [discriminate|].
    destruct (Get_from _ hp StringPrototype k); discriminate.
  - destruct (Get_from _ hp l k); discriminate.
Qed.

Lemma GetV_computed_err `{Host} hp base key e :
  GetV_computed hp base key = Err e -> access_failure e.
Proof.
  unfold GetV_computed. intros Hg.
  assert (Hk : res_bind (ToPropertyKey hp key) (GetV hp base) = Err e -> access_failure e).
  { unfold ToPropertyKey. destruct key as [| |[|]|z|s|l]; cbn [primitive_key res_bind];
      try (intros Hv; left; exact (GetV_err _ _ _ _ Hv)).
    destruct (ToString hp l) as [t|e'|] eqn:Ht; cbn [res_bind].
    - intros Hv. left. exact (GetV_err _ _ _ _ Hv).
    - intros [= <-]. right. right. exists hp, l. exact Ht.
    - discriminate. }
  destruct base; try (apply Hk, Hg); left; congruence.
Qed.

Lemma fails_in_access_ret `{Host} {A} (a : A) : fails_in_access (ret a).
Proof. intros w e w1. discriminate. Qed.

Lemma fails_in_access_bind `{Host} {A B} (m : M A) (k : A -> M B) :
  fails_in_access m -> (forall a, fails_in_access (k a)) -> fails_in_access (bind m k).
Proof.
  intros Hm Hk w e w1. unfold bind. specialize (Hm w).
  destruct (m w) as [[a|e0|] w0].
  - apply Hk.
  - intros [= <- <-]. exact (Hm e0 w0 eq_refl).
  - discriminate.
Qed.

Lemma fails_in_access_getv `{Host} v k : fails_in_access (getv v k).
Proof. intros w e w1. unfold getv. intros [= Hg _]. left. exact (GetV_err _ _ _ _ Hg). Qed.

Lemma fails_in_access_get_heap `{Host} : fails_in_access get_heap.
Proof. intros w e w1. discriminate. Qed.

Lemma fails_in_access_new_object `{Host} props : fails_in_access (new_object props).
Proof. intros w e w1. discriminate. Qed.

Lemma fails_in_access_set_prop `{Host} t k v : fails_in_access (set_prop t k v).
Proof.
  intros w e w1. unfold set_prop.
  destruct t; try (intros [= <- _]; left; reflexivity).
  destruct (objects w !! l); discriminate.
Qed.

Lemma fails_in_access_namespace `{Host} s : fails_in_access (lift (namespace s)).
Proof. intros w e w1. unfold lift. intros [= Hn _]. right. left. exists s. exact Hn. Qed.

Lemma fails_in_access_computed `{Host} hp base key :
  fails_in_access (lift (GetV_computed hp base key)).
Proof. intros w e w1. unfold lift. intros [= Hg _]. exact (GetV_computed_err _ _ _ _ Hg). Qed.

Ltac fails_in_access_step :=
  first
    [ apply fails_in_access_ret | apply fails_in_access_getv
    | apply fails_in_access_get_heap | apply fails_in_access_new_object
    | apply fails_in_access_set_prop | apply fails_in_access_namespace
    | apply fails_in_access_computed
    | apply fails_in_access_bind; [|intros ?]
    | match goal with
      | |- fails_in_access (if ?b then _ else _) => destruct b
      | |- fails_in_access (match ?x with _ => _ end) => destruct x
      end ].

(** The branch of [normalizeHandler] taken by an array of length two. *)
Lemma pair_branch_fails_in_access `{Host} (handler : value) :
  fails_in_access
    (let* callable := is_callable_pair handler in
     if callable then
       let* c := getv handler "1" in
       let* f := getv handler "0" in
       new_object [("context", c); ("callback", f)]
     else
       let* h0 := getv handler "0" in
       do (match h0 with
           | VString s =>
               let* t := lift (namespace s) in
               set_prop handler "0" (VRef t)
           | _ => ret tt
           end) then
       let* c := getv handler "0" in
       let* base := getv handler "0" in
       let* key := getv handler "1" in
       let* hp' := get_heap in
       let* f := lift (GetV_computed hp' base key) in
       new_object [("context", c); ("callback", f)]).
Proof. unfold is_callable_pair. repeat fails_in_access_step. Qed.

(** C8 (as the code has it). Every falsy input, null and undefined among
    them, normalizes to null and leaves the world alone. A truthy input that
    is neither an object with own [callback] and [context], nor an array of
    length two, nor a string, nor a function is rejected: [JSON.stringify]
    is applied to it, and the call raises [ApplicationException] with the
    message ['Wrong handler format:'] followed by the JSON text, or what
    [JSON.stringify] raised. An array of length two is taken as a pair form,
    whatever its elements: its normalization can fail only with a
    [TypeError] of a property read, or with the exception of the namespace
    resolver or of the conversion of its second element to a property
    key. *)
Theorem normalizeHandler_rejects `{Host} (w : world) (this : loc) (handler context : value) :
  (truthy handler = false ->
   normalizeHandler this handler context w = (Ok VNull, w)) /\
  (truthy handler = true ->
   _isObject handler && _has (objects w) handler "callback"
     && _has (objects w) handler "context" = false ->
   is_pair handler w = (Ok false, w) ->
   _isString handler = false ->
   _isFunction (objects w) handler = false ->
   normalizeHandler this handler context w =
     (res_bind (JSON_stringify (objects w) handler) (fun text =>
        Err (ApplicationException ("Wrong handler format:" +:+ text))), w)) /\
  (truthy handler = true ->
   _isObject handler && _has (objects w) handler "callback"
     && _has (objects w) handler "context" = false ->
   is_pair handler w = (Ok true, w) ->
   forall e w1,
     normalizeHandler this handler context w = (Err e, w1) -> access_failure e).
Proof.
  split; [|split].
  - intros Ht. unfold normalizeHandler. rewrite Ht. reflexivity.
  - intros Ht Hn Hp Hs Hf. unfold normalizeHandler. rewrite Ht. cbn [negb].
    rewrite (bind_ok get_heap _ w (objects w) w eq_refl), Hn.
    rewrite (bind_ok _ _ _ _ _ Hp). rewrite Hf.
    destruct handler; try discriminate;
      (unfold bind, lift, throw, lift;
       destruct (JSON_stringify _ _) as [text|e|]; reflexivity).
  - intros Ht Hn Hp e w1. unfold normalizeHandler. rewrite Ht. cbn [negb].
    rewrite (bind_ok get_heap _ w (objects w) w eq_refl), Hn.
    rewrite (bind_ok _ _ _ _ _ Hp).
    apply (pair_branch_fails_in_access handler w e w1).
Qed.

(** * The model at work on the sample program *)

(** C1 (the code against the documented behaviour). After [Event.on(A, 'e', h1)],
    [Event.off(A, 'e', h2)] with a function h2 that was never attached
    returns true and empties the list; and with bindings of h1 on A and of h2
    on B, [Event.off(A, 'e', h1)] also removes the binding on B. *)
Theorem off_removes_bindings_it_should_keep :
  bindings demo_world_A "e" = [mkBinding (VRef demo_A) (VRef 24%nat) VNull] /\
  GetV (objects demo_world_A) (VRef 24%nat) "callback" = Ok (VRef demo_h1) /\
  fst (@off (demo_host []) demo_Event (VRef demo_A) "e" (VRef demo_h2) demo_world_A) = Ok true /\
  bindings (snd (@off (demo_host []) demo_Event (VRef demo_A) "e" (VRef demo_h2) demo_world_A)) "e"
    = [] /\
  bindings demo_world_AB "e"
    = [mkBinding (VRef demo_A) (VRef 24%nat) VNull; mkBinding (VRef demo_B) (VRef 25%nat) VNull] /\
  bindings (snd (@off (demo_host []) demo_Event (VRef demo_A) "e" (VRef demo_h1) demo_world_AB)) "e"
    = [].
Proof. repeat split; vm_compute; reflexivity. Qed.

(** C2 (the code against the documented behaviour). [trigger] given the class A itself
    (or its name ['app.A']) takes [A.constructor], which is [Function], as
    the first level: the binding on A is not called, although [hasHandlers]
    finds it and a [trigger] on an instance of A calls it. *)
Theorem trigger_on_class_skips_its_binding :
  bindings demo_world_A "e" = [mkBinding (VRef demo_A) (VRef 24%nat) VNull] /\
  GetV (objects demo_world_A) (VRef demo_A) "constructor" = Ok (VRef FunctionConstructor) /\
  @trigger (demo_host []) demo_world_A (VRef demo_A) "e" None
    = ([], Ok (Some (demo_event demo_A))) /\
  sender (demo_event demo_A) = VRef demo_A /\
  fst (@trigger (demo_host []) demo_world_A (VString "app.A") "e" None) = [] /\
  @hasHandlers (demo_host []) demo_world_A (VRef demo_A) "e" = Ok true /\
  fst (@trigger (demo_host []) demo_world_A (VRef demo_a) "e" None)
    = [mkInvocation demo_h1 VNull (demo_event demo_a)].
Proof. repeat split; vm_compute; reflexivity. Qed.

(** C7 (the code against the documented behaviour). After
    [Event.on(A, 'e', h1)] and [Event.on(A, 'e', h2, undefined, false)] the
    list of ['e'] holds the binding of h2 before the binding of h1. Yet
    [Event.trigger(A, 'e')], with the class or with its name ['app.A'],
    calls neither handler: the walk starts at [A.constructor], which is
    [Function]. A [trigger] on an instance of A calls h2, then h1. *)
Theorem prepended_handler_not_reached_from_class :
  bindings demo_world_prepended "e"
    = [mkBinding (VRef demo_A) (VRef 25%nat) VNull; mkBinding (VRef demo_A) (VRef 24%nat) VNull] /\
  GetV (objects demo_world_prepended) (VRef 25%nat) "callback" = Ok (VRef demo_h2) /\
  GetV (objects demo_world_prepended) (VRef 24%nat) "callback" = Ok (VRef demo_h1) /\
  GetV (objects demo_world_prepended) (VRef demo_A) "constructor"
    = Ok (VRef FunctionConstructor) /\
  @trigger (demo_host []) demo_world_prepended (VRef demo_A) "e" None
    = ([], Ok (Some (demo_event demo_A))) /\
  fst (@trigger (demo_host []) demo_world_prepended (VString "app.A") "e" None) = [] /\
  fst (@trigger (demo_host []) demo_world_prepended (VRef demo_a) "e" None)
    = [mkInvocation demo_h2 VNull (demo_event demo_a);
       mkInvocation demo_h1 VNull (demo_event demo_a)].
Proof. repeat split; vm_compute; reflexivity. Qed.

(** The B-level handler h2 sets [handled]; the A-level handler h1 is never
    called. *)
Lemma trigger_stops_once_handled_witness :
  fst (@trigger (demo_host [demo_h2]) demo_world_AB (VRef demo_c) "e" None)
    = [] ++ mkInvocation demo_h2 VNull (demo_event demo_c) :: [] /\
  @Call (demo_host [demo_h2]) (objects demo_world_AB) demo_h2 VNull (demo_event demo_c)
    = Ok (set_handled true (demo_event demo_c)) /\
  handled (set_handled true (demo_event demo_c)) = true /\
  ([] : list invocation) = [].
Proof.
  split; [vm_compute; reflexivity|]. split; [vm_compute; reflexivity|].
  split; [reflexivity|].
  apply (@trigger_stops_once_handled (demo_host [demo_h2]) demo_world_AB (VRef demo_c) "e" None
           [] [] (mkInvocation demo_h2 VNull (demo_event demo_c))
           (set_handled true (demo_event demo_c)));
    vm_compute; reflexivity.
Defined.

Lemma hierarchy_fan_out_witness :
  levels (objects demo_world) (VRef demo_C)
    = Some [VRef demo_C; VRef demo_B; VRef demo_A; VRef FunctionPrototype; VRef ObjectPrototype] /\
  bound_types (bindings demo_world "e") = [] /\
  plain_function (objects demo_world) demo_h1 = true /\
  GetV (objects demo_world) (VRef demo_c) "constructor" = Ok (VRef demo_C) /\
  fst (@trigger (demo_host []) demo_world_A (VRef demo_c) "e" None)
    = [mkInvocation demo_h1 VNull (demo_event demo_c)].
Proof.
  split; [vm_compute; reflexivity|]. split; [vm_compute; reflexivity|].
  split; [vm_compute; reflexivity|]. split; [vm_compute; reflexivity|].
  refine (proj1 (@hierarchy_fan_out (demo_host []) demo_world demo_Event demo_A demo_B demo_C
                   demo_h1 [VRef FunctionPrototype; VRef ObjectPrototype] "e"
                   VUndefined VUndefined None _ _ _) demo_c _).
  - vm_compute; reflexivity.
  - intros u _ Hin. vm_compute in Hin. exact Hin.
  - vm_compute; reflexivity.
  - vm_compute; reflexivity.
Defined.


(** The lemma on prepending at the sample program: an instance of A. *)
Lemma on_prepend_runs_first_example :
  _isUndefined (VBool false) = false /\
  truthy (VBool false) = false /\
  plain_function (objects demo_world) demo_h1 = true /\
  plain_function (objects demo_world) demo_h2 = true /\
  GetV (objects demo_world) (VRef demo_a) "constructor" = Ok (VRef demo_A) /\
  exists tl,
    fst (@trigger (demo_host [])
           (snd (@on (demo_host []) demo_Event (VRef demo_A) "e" (VRef demo_h2)
                   VUndefined (VBool false) demo_world_A))
           (VRef demo_a) "e" None)
    = mkInvocation demo_h2 VNull (demo_event demo_a) :: tl.
Proof.
  split; [reflexivity|]. split; [reflexivity|].
  split; [vm_compute; reflexivity|]. split; [vm_compute; reflexivity|].
  split; [vm_compute; reflexivity|].
  destruct (proj2 (@on_prepend_runs_first (demo_host []) demo_world demo_Event "e" (VBool false)
                     eq_refl eq_refl)
              demo_A demo_h1 demo_h2 demo_a VUndefined VUndefined None)
    as [tl [Htl _]].
  - vm_compute; reflexivity.
  - vm_compute; reflexivity.
  - vm_compute; reflexivity.
  - exists tl. exact Htl.
Defined.

(** C9 (where the specification and the code part). With [Event.on(C, 'e', h1)]
    and [Event.on(C.prototype, 'e', h2)], the instance c of C has a binding
    registered for its class, [trigger] on c calls h1, and [hasHandlers] on
    c answers true: it met [C.prototype] on the prototype chain of c. *)
Lemma hasHandlers_true_on_instance_counterexample :
  bindings demo_world_C_prototype "e"
    = [mkBinding (VRef demo_C) (VRef 24%nat) VNull;
       mkBinding (VRef demo_C_prototype) (VRef 25%nat) VNull] /\
  GetV (objects demo_world_C_prototype) (VRef demo_c) "constructor" = Ok (VRef demo_C) /\
  getPrototypeOf (objects demo_world_C_prototype) (VRef demo_c) = Ok (VRef demo_C_prototype) /\
  fst (@trigger (demo_host []) demo_world_C_prototype (VRef demo_c) "e" None)
    = [mkInvocation demo_h1 VNull (demo_event demo_c)] /\
  @hasHandlers (demo_host []) demo_world_C_prototype (VRef demo_c) "e" = Ok true.
Proof. repeat split; vm_compute; reflexivity. Qed.

(** With the class C alone bound, [hasHandlers] on the instance c answers
    false and [trigger] on c calls the handler. *)
Lemma hasHandlers_compares_the_instance_chain_witness :
  levels (objects demo_world_C) (VRef demo_c)
    = Some [VRef demo_c; VRef demo_C_prototype; VRef 13%nat; VRef 11%nat; VRef ObjectPrototype] /\
  _events demo_world_C !! "e" = Some [mkBinding (VRef demo_C) (VRef 24%nat) VNull] /\
  GetV (objects demo_world_C) (VRef demo_c) "constructor" = Ok (VRef demo_C) /\
  @hasHandlers (demo_host []) demo_world_C (VRef demo_c) "e" = Ok false /\
  exists tl,
    fst (@trigger (demo_host []) demo_world_C (VRef demo_c) "e" None)
    = mkInvocation demo_h1 VNull (demo_event demo_c) :: tl.
Proof.
  split; [vm_compute; reflexivity|]. split; [vm_compute; reflexivity|].
  split; [vm_compute; reflexivity|].
  assert (Hthm := @hasHandlers_compares_the_instance_chain (demo_host []) demo_world_C demo_c "e"
            [VRef demo_c; VRef demo_C_prototype; VRef 13%nat; VRef 11%nat; VRef ObjectPrototype]
            [mkBinding (VRef demo_C) (VRef 24%nat) VNull]).
  destruct Hthm as (_ & _ & Hnone & _ & Htrig).
  - vm_compute; reflexivity.
  - vm_compute; reflexivity.
  - split.
    + apply Hnone. intros u Hu Hb. simpl in Hb. destruct Hb as [<-|[]].
      simpl in Hu. destruct Hu as [Hu|[Hu|[Hu|[Hu|[Hu|[]]]]]]; discriminate Hu.
    + apply (Htrig demo_C [] [] (mkBinding (VRef demo_C) (VRef 24%nat) VNull) demo_h1 VNull None);
        try (vm_compute; reflexivity).
      intros [].
Defined.

(** C10 (where the specification and the code part). The sample resolver knows no
    type ['app.Missing']: [Event.on(B, 'e', ['app.Missing', 'm'])] and the
    corresponding [off] raise the resolver's exception, and after the call
    element 0 of the array is still the string. The same holds of the array
    [['app.A', 'm']] when the class name given to [on] does not resolve. *)
Lemma pair_form_unresolved_keeps_string_counterexample :
  type_pair_at (objects demo_world_unknown) demo_unknown_pair demo_unknown_pair_object
    "app.Missing" "m" /\
  fst (@on (demo_host []) demo_Event (VRef demo_B) "e" (VRef demo_unknown_pair)
         VUndefined VUndefined demo_world_unknown) = Err (Thrown (VString "UnknownType")) /\
  GetV (objects (snd (@on (demo_host []) demo_Event (VRef demo_B) "e" (VRef demo_unknown_pair)
                        VUndefined VUndefined demo_world_unknown)))
       (VRef demo_unknown_pair) "0" = Ok (VString "app.Missing") /\
  GetV (objects (snd (@off (demo_host []) demo_Event (VRef demo_B) "e" (VRef demo_unknown_pair)
                        demo_world_unknown)))
       (VRef demo_unknown_pair) "0" = Ok (VString "app.Missing") /\
  GetV (objects (snd (@normalizeHandler (demo_host []) demo_Event (VRef demo_unknown_pair)
                        VUndefined demo_world_unknown)))
       (VRef demo_unknown_pair) "0" = Ok (VString "app.Missing") /\
  GetV (objects (snd (@on (demo_host []) demo_Event (VString "app.Missing") "e" (VRef demo_pair)
                        VUndefined VUndefined demo_world)))
       (VRef demo_pair) "0" = Ok (VString "app.A").
Proof. repeat split; vm_compute; reflexivity. Qed.

Lemma pair_form_mutates_array_witness :
  type_pair_at (objects demo_world) demo_pair demo_pair_object "app.A" "m" /\
  @namespace (demo_host []) "app.A" = Ok demo_A /\
  objects (snd (@on (demo_host []) demo_Event (VRef demo_B) "e" (VRef demo_pair)
                  VUndefined VUndefined demo_world)) !! demo_pair
    = Some (resolved_pair demo_pair_object demo_A) /\
  objects (snd (@off (demo_host []) demo_Event (VRef demo_B) "e" (VRef demo_pair)
                  demo_world)) !! demo_pair
    = Some (resolved_pair demo_pair_object demo_A) /\
  @on (demo_host []) demo_Event (VString "app.Missing") "e" (VRef demo_pair)
      VUndefined VUndefined demo_world
    = (Err (Thrown (VString "UnknownType")), demo_world).
Proof.
  assert (Hp : type_pair_at (objects demo_world) demo_pair demo_pair_object "app.A" "m")
    by (repeat split; vm_compute; reflexivity).
  split; [exact Hp|]. split; [reflexivity|].
  destruct (@pair_form_mutates_array (demo_host []) demo_world demo_Event demo_pair
              demo_pair_object "app.A" "m" Hp) as (Hok & _ & Hcls).
  destruct (Hok demo_A eq_refl) as (_ & _ & _ & Hon & Hoff).
  split; [|split].
  - exact (Hon (VRef demo_B) (VRef demo_B) "e" VUndefined VUndefined eq_refl).
  - exact (Hoff (VRef demo_B) (VRef demo_B) "e" eq_refl).
  - exact (proj1 (Hcls (VString "app.Missing") (Thrown (VString "UnknownType")) "e"
                    VUndefined VUndefined eq_refl)).
Defined.

(** C5 (where the specification and the code part). Registering the method name
    ['trigger'] through [Event.on] stores a handler whose callback is
    [Event.trigger] but whose context is null, not the class. *)
Lemma string_handler_context_counterexample :
  bindings demo_world_named "e" = [mkBinding (VRef demo_A) (VRef 24%nat) VNull] /\
  GetV (objects demo_world_named) (VRef 24%nat) "callback" = Ok (VRef demo_trigger_method) /\
  GetV (objects demo_world_named) (VRef 24%nat) "context" = Ok VNull /\
  GetV (objects demo_world_named) (VRef 24%nat) "context" <> Ok (VRef demo_Event) /\
  GetV (objects demo_world_named) (VRef 24%nat) "context" <> Ok (VRef demo_A).
Proof.
  repeat split; try (vm_compute; reflexivity); vm_compute; discriminate.
Qed.

Lemma string_handler_uses_receiver_and_null_context_witness :
  "trigger" <> "" /\
  Get (objects demo_world) demo_Event "trigger" = Ok (VRef demo_trigger_method) /\
  @normalizeHandler (demo_host []) demo_Event (VString "trigger") VUndefined demo_world =
    (Ok (VRef (List.length (objects demo_world))),
     mkWorld (objects demo_world ++ [handler_object VNull (VRef demo_trigger_method)])
             (_events demo_world)).
Proof.
  split; [discriminate|]. split; [vm_compute; reflexivity|].
  refine (proj1 (@string_handler_uses_receiver_and_null_context (demo_host []) demo_world
                   demo_Event "trigger" (VRef demo_trigger_method) _ _) VUndefined).
  - discriminate.
  - vm_compute; reflexivity.
Defined.

(** C8 (where the specification and the code part). The values [false] and [[1, 2]] match
    none of the five accepted shapes, yet normalization does not fail on
    them: the first gives null, the second a handler whose context is 1 and
    whose callback is undefined. *)
Lemma normalizeHandler_accepts_other_shapes_counterexample :
  spec_accepted_shape (objects demo_world) (VBool false) = false /\
  @normalizeHandler (demo_host []) demo_Event (VBool false) VUndefined demo_world
    = (Ok VNull, demo_world) /\
  spec_accepted_shape (objects demo_world) (VRef demo_numbers) = false /\
  fst (@normalizeHandler (demo_host []) demo_Event (VRef demo_numbers) VUndefined demo_world)
    = Ok (VRef 24%nat) /\
  GetV (objects (snd (@normalizeHandler (demo_host []) demo_Event (VRef demo_numbers)
                        VUndefined demo_world))) (VRef 24%nat) "context" = Ok (VNumber 1) /\
  GetV (objects (snd (@normalizeHandler (demo_host []) demo_Event (VRef demo_numbers)
                        VUndefined demo_world))) (VRef 24%nat) "callback" = Ok VUndefined.
Proof. repeat split; vm_compute; reflexivity. Qed.

(** The number 5 is rejected with its JSON text; [undefined] gives null;
    the pair [['app.Missing', 'm']] fails with the resolver's exception. *)
Lemma normalizeHandler_rejects_witness :
  truthy (VNumber 5) = true /\
  is_pair (VNumber 5) demo_world = (Ok false, demo_world) /\
  @normalizeHandler (demo_host []) demo_Event (VNumber 5) VUndefined demo_world
    = (Err (ApplicationException "Wrong handler format:5"), demo_world) /\
  @normalizeHandler (demo_host []) demo_Event VUndefined VUndefined demo_world
    = (Ok VNull, demo_world) /\
  is_pair (VRef demo_unknown_pair) demo_world_unknown = (Ok true, demo_world_unknown) /\
  @normalizeHandler (demo_host []) demo_Event (VRef demo_unknown_pair) VUndefined
      demo_world_unknown
    = (Err (Thrown (VString "UnknownType")), demo_world_unknown) /\
  @access_failure (demo_host []) (Thrown (VString "UnknownType")).
Proof.
  split; [reflexivity|]. split; [reflexivity|]. split; [|split; [|split; [|split]]].
  - exact (proj1 (proj2 (@normalizeHandler_rejects (demo_host []) demo_world demo_Event
                           (VNumber 5) VUndefined)) eq_refl eq_refl eq_refl eq_refl eq_refl).
  - exact (proj1 (@normalizeHandler_rejects (demo_host []) demo_world demo_Event
                    VUndefined VUndefined) eq_refl).
  - vm_compute; reflexivity.
  - vm_compute; reflexivity.
  - refine (proj2 (proj2 (@normalizeHandler_rejects (demo_host []) demo_world_unknown demo_Event
                            (VRef demo_unknown_pair) VUndefined)) _ _ _
              (Thrown (VString "UnknownType")) demo_world_unknown _).
    + reflexivity.
    + vm_compute; reflexivity.
    + vm_compute; reflexivity.
    + vm_compute; reflexivity.
Defined.

(** * Further properties of the registry *)

(** ** What [off] removes *)

Lemma filter_res_total {A} (p : A -> res bool) (q : A -> bool) (l : list A) :
  (forall x, In x l -> p x = Ok (q x)) -> filter_res p l = Ok (List.filter q l).
Proof.
  induction l as [|x l IH]; intros Hp; [reflexivity|]. simpl.
  rewrite (Hp x (or_introl eq_refl)). simpl.
  rewrite IH by (intros y Hy; apply Hp; right; exact Hy). reflexivity.
Qed.

Lemma filter_res_sound {A} (p : A -> res bool) (l r : list A) :
  filter_res p l = Ok r ->
  r `sublist_of` l /\ (forall x, In x r -> p x = Ok true) /\
  (List.length r = List.length l -> r = l).
Proof.
  revert r. induction l as [|x l IH]; simpl; intros r Hf.
  - injection Hf as <-. split; [constructor|]. split; [intros ? []|reflexivity].
  - destruct (p x) as [keep| |] eqn:Hx; try discriminate. simpl in Hf.
    destruct (filter_res p l) as [r'| |]; try discriminate. simpl in Hf.
    injection Hf as <-. destruct (IH r' eq_refl) as (Hs & Hk & Hl).
    destruct keep.
    + split; [constructor; exact Hs|]. split.
      * intros y [<-|Hy]; [exact Hx|apply Hk, Hy].
      * simpl. intros Hlen. f_equal. apply Hl. lia.
    + split; [constructor; exact Hs|]. split; [exact Hk|].
      simpl. intros Hlen. apply sublist_length in Hs. lia.
Qed.

Lemma off_run `{Host} this cls c name handler w nh w1 items kept :
  resolve cls = Ok c ->
  normalizeHandler this (if truthy handler then handler else VNull) VUndefined w = (Ok nh, w1) ->
  _events w !! name = Some items ->
  filter_res (off_keeps (objects w1) c nh) items = Ok kept ->
  off this cls name handler w =
    (Ok (negb (Nat.eqb (List.length kept) (List.length items))),
     mkWorld (objects w1) (<[name := kept]> (_events w))).
Proof.
  intros Hr Hn He Hf. unfold off.
  rewrite (bind_ok (lift (resolve cls)) _ w c w) by (unfold lift; rewrite Hr; reflexivity).
  rewrite (bind_ok _ _ _ _ _ Hn).
  pose proof (normalizeHandler_keeps_events this
                (if truthy handler then handler else VNull) VUndefined w) as Hk.
  rewrite Hn in Hk. simpl in Hk.
  rewrite (bind_ok get_events _ w1 (_events w1) w1 eq_refl). rewrite Hk, He.
  rewrite (bind_ok get_heap _ w1 (objects w1) w1 eq_refl).
  rewrite (bind_ok (lift (filter_res _ items)) _ w1 kept w1)
    by (unfold lift; rewrite Hf; reflexivity).
  unfold bind, set_events, ret. reflexivity.
Qed.

(** What a run of [off] that returns normally went through. *)
Lemma off_inv `{Host} this cls c name handler w b w' items :
  resolve cls = Ok c ->
  _events w !! name = Some items ->
  off this cls name handler w = (Ok b, w') ->
  exists nh w1 kept,
    normalizeHandler this (if truthy handler then handler else VNull) VUndefined w = (Ok nh, w1) /\
    filter_res (off_keeps (objects w1) c nh) items = Ok kept /\
    b = negb (Nat.eqb (List.length kept) (List.length items)) /\
    w' = mkWorld (objects w1) (<[name := kept]> (_events w)).
Proof.
  intros Hr He Hoff.
  destruct (normalizeHandler this (if truthy handler then handler else VNull) VUndefined w)
    as [[nh| |] w1] eqn:Hn.
  - destruct (filter_res (off_keeps (objects w1) c nh) items) as [kept| |] eqn:Hf.
    + rewrite (off_run _ _ _ _ _ _ _ _ _ _ Hr Hn He Hf) in Hoff.
      injection Hoff as <- <-. exists nh, w1, kept. repeat split; assumption.
    + exfalso. revert Hoff. unfold off.
      rewrite (bind_ok (lift (resolve cls)) _ w c w) by (unfold lift; rewrite Hr; reflexivity).
      rewrite (bind_ok _ _ _ _ _ Hn).
      pose proof (normalizeHandler_keeps_events this
                    (if truthy handler then handler else VNull) VUndefined w) as Hk.
      rewrite Hn in Hk. simpl in Hk.
      rewrite (bind_ok get_events _ w1 (_events w1) w1 eq_refl). rewrite Hk, He.
      rewrite (bind_ok get_heap _ w1 (objects w1) w1 eq_refl).
      unfold bind, lift. rewrite Hf. discriminate.
    + exfalso. revert Hoff. unfold off.
      rewrite (bind_ok (lift (resolve cls)) _ w c w) by (unfold lift; rewrite Hr; reflexivity).
      rewrite (bind_ok _ _ _ _ _ Hn).
      pose proof (normalizeHandler_keeps_events this
                    (if truthy handler then handler else VNull) VUndefined w) as Hk.
      rewrite Hn in Hk. simpl in Hk.
      rewrite (bind_ok get_events _ w1 (_events w1) w1 eq_refl). rewrite Hk, He.
      rewrite (bind_ok get_heap _ w1 (objects w1) w1 eq_refl).
      unfold bind, lift. rewrite Hf. discriminate.
  - exfalso. revert Hoff. unfold off.
    rewrite (bind_ok (lift (resolve cls)) _ w c w) by (unfold lift; rewrite Hr; reflexivity).
    unfold bind at 1. rewrite Hn. discriminate.
  - exfalso. revert Hoff. unfold off.
    rewrite (bind_ok (lift (resolve cls)) _ w c w) by (unfold lift; rewrite Hr; reflexivity).
    unfold bind at 1. rewrite Hn. discriminate.
Qed.

Lemma filter_all_length {A} (q : A -> bool) (l : list A) :
  negb (Nat.eqb (List.length (List.filter (fun x => negb (q x)) l)) (List.length l))
  = existsb q l.
Proof.
  induction l as [|x l IH]; [reflexivity|]. simpl.
  pose proof (List.filter_length_le (fun x => negb (q x)) l) as Hle.
  destruct (q x); simpl.
  - apply negb_true_iff, Nat.eqb_neq. lia.
  - exact IH.
Qed.

(** X1. [off] with the handler omitted, null or otherwise falsy removes
    exactly the bindings of the class from the list of the name, keeping the
    others in their order, leaves the heap alone, and returns whether the
    class had a binding there. *)
Theorem off_without_handler_removes_class `{Host} (w : world) (this : loc) (cls c : value)
    (name : string) (handler : value) (items : list binding) :
  truthy handler = false ->
  resolve cls = Ok c ->
  _events w !! name = Some items ->
  off this cls name handler w =
    (Ok (existsb (fun i => strict_eq (item0 i) c) items),
     mkWorld (objects w)
       (<[name := List.filter (fun i => negb (strict_eq (item0 i) c)) items]> (_events w))).
Proof.
  intros Ht Hr He.
  assert (Hn : normalizeHandler this (if truthy handler then handler else VNull) VUndefined w
               = (Ok VNull, w)) by (rewrite Ht; reflexivity).
  rewrite (off_run this cls c name handler w VNull w items
             (List.filter (fun i => negb (strict_eq (item0 i) c)) items) Hr Hn He).
  - rewrite filter_all_length. reflexivity.
  - apply filter_res_total. intros x _. unfold off_keeps.
    destruct (strict_eq (item0 x) c); reflexivity.
Qed.

(** X2. Whatever the handler, an [off] that returns leaves no binding of
    the class under the name; the new list is a sublist of the old one (it
    adds and reorders nothing); and it returns false exactly when the list is
    unchanged. *)
Theorem off_leaves_no_binding_of_class `{Host} (w w' : world) (this : loc) (cls c : value)
    (name : string) (handler : value) (items : list binding) (b : bool) :
  resolve cls = Ok c ->
  _events w !! name = Some items ->
  off this cls name handler w = (Ok b, w') ->
  bindings w' name `sublist_of` items /\
  ~ In c (bound_types (bindings w' name)) /\
  (b = false <-> bindings w' name = items).
Proof.
  intros Hr He Hoff.
  destruct (off_inv _ _ _ _ _ _ _ _ _ Hr He Hoff) as (nh & w1 & kept & Hn & Hf & -> & ->).
  rewrite bindings_insert.
  destruct (filter_res_sound _ _ _ Hf) as (Hs & Hk & Hl).
  split; [exact Hs|]. split.
  - intros Hin. unfold bound_types in Hin. apply in_map_iff in Hin as (x & Hx & Hin).
    specialize (Hk x Hin). unfold off_keeps in Hk.
    unfold strict_eq in Hk at 1. rewrite bool_decide_eq_true_2 in Hk by exact Hx.
    simpl in Hk. discriminate.
  - split.
    + intros Hb. apply negb_false_iff, Nat.eqb_eq in Hb. apply Hl, Hb.
    + intros ->. apply negb_false_iff, Nat.eqb_eq. reflexivity.
Qed.

(** X3. A name that has no list, and is not a property name inherited
    from [Object.prototype], has none after [off], which then returns false
    as soon as the handler normalizes. *)
Theorem off_of_unknown_name `{Host} (w : world) (this : loc) (cls c : value)
    (name : string) (handler : value) :
  resolve cls = Ok c ->
  _events w !! name = None ->
  inherited_name name = false ->
  _events (snd (off this cls name handler w)) = _events w /\
  (forall nh w1,
     normalizeHandler this (if truthy handler then handler else VNull) VUndefined w
       = (Ok nh, w1) ->
     off this cls name handler w = (Ok false, w1)).
Proof.
  intros Hr He _.
  pose proof (normalizeHandler_keeps_events this
                (if truthy handler then handler else VNull) VUndefined w) as Hk.
  unfold off.
  rewrite (bind_ok (lift (resolve cls)) _ w c w) by (unfold lift; rewrite Hr; reflexivity).
  destruct (normalizeHandler this (if truthy handler then handler else VNull) VUndefined w)
    as [[nh| |] w1] eqn:Hn; simpl in Hk.
  - rewrite (bind_ok _ _ _ _ _ Hn).
    rewrite (bind_ok get_events _ w1 (_events w1) w1 eq_refl). rewrite Hk, He.
    split; [exact Hk|]. intros nh' w1' [= <- <-]. reflexivity.
  - unfold bind at 1. rewrite Hn. split; [exact Hk|]. intros ? ? [=].
  - unfold bind at 1. rewrite Hn. split; [exact Hk|]. intros ? ? [=].
Qed.

(** ** What [on] and [off] touch *)

Lemma on_events `{Host} this cls name handler data isAppend w :
  _events (snd (on this cls name handler data isAppend w)) = _events w \/
  exists l, _events (snd (on this cls name handler data isAppend w)) = <[name := l]> (_events w).
Proof.
  destruct (resolve cls) as [c| |] eqn:Hr;
    [|left; unfold on, bind, lift; rewrite Hr; reflexivity..].
  destruct (normalizeHandler this handler VUndefined w) as [[nh| |] w1] eqn:Hn.
  - right. rewrite (on_run _ _ _ _ _ _ _ _ _ _ Hr Hn). eexists. reflexivity.
  - left. eapply on_fails; eauto; discriminate.
  - left. eapply on_fails; eauto; discriminate.
Qed.

Lemma off_events `{Host} this cls name handler w :
  _events (snd (off this cls name handler w)) = _events w \/
  exists l, _events (snd (off this cls name handler w)) = <[name := l]> (_events w).
Proof.
  pose proof (normalizeHandler_keeps_events this
                (if truthy handler then handler else VNull) VUndefined w) as Hk.
  unfold off.
  destruct (resolve cls) as [c| |] eqn:Hr;
    [|left; reflexivity..].
  rewrite (bind_ok (lift (Ok c)) _ w c w) by reflexivity.
  destruct (normalizeHandler this (if truthy handler then handler else VNull) VUndefined w)
    as [[nh| |] w1] eqn:Hn; simpl in Hk;
    [|left; unfold bind at 1; rewrite Hn; exact Hk..].
  rewrite (bind_ok _ _ _ _ _ Hn).
  rewrite (bind_ok get_events _ w1 (_events w1) w1 eq_refl).
  destruct (_events w1 !! name) as [items|]; [|left; exact Hk].
  rewrite (bind_ok get_heap _ w1 (objects w1) w1 eq_refl).
  destruct (filter_res (off_keeps (objects w1) c nh) items) as [kept| |] eqn:Hf;
    [|left; exact Hk..].
  rewrite (bind_ok (lift (Ok kept)) _ w1 kept w1) by reflexivity.
  right. exists kept. unfold bind, set_events, ret. simpl. rewrite Hk. reflexivity.
Qed.

(** X4. [on] and [off] for one event name never change the list of
    another name, whatever their outcome. *)
Theorem registration_leaves_other_names `{Host} (w : world) (this : loc) (cls : value)
    (name other : string) (handler data isAppend : value) :
  other <> name ->
  _events (snd (on this cls name handler data isAppend w)) !! other = _events w !! other /\
  _events (snd (off this cls name handler w)) !! other = _events w !! other.
Proof.
  intros Hne. split.
  - destruct (on_events this cls name handler data isAppend w) as [->|[l ->]]; [reflexivity|].
    apply lookup_insert_ne. congruence.
  - destruct (off_events this cls name handler w) as [->|[l ->]]; [reflexivity|].
    apply lookup_insert_ne. congruence.
Qed.

Lemma registered_bound isAppend old c nh d :
  In c (bound_types (registered isAppend old c (mkBinding c nh d))).
Proof.
  unfold registered. destruct (truthy _ || negb _).
  - destruct (List.find _ (default [] old)) as [i|] eqn:Hf.
    + apply find_bound_some in Hf as [Hin <-]. unfold bound_types. apply in_map, Hin.
    + unfold bound_types. rewrite map_app. apply in_or_app. right. left. reflexivity.
  - left. reflexivity.
Qed.

Lemma on_inv `{Host} this cls c name handler data isAppend w w' :
  resolve cls = Ok c ->
  on this cls name handler data isAppend w = (Ok tt, w') ->
  exists nh w1,
    normalizeHandler this handler VUndefined w = (Ok nh, w1) /\
    w' = mkWorld (objects w1)
           (<[name := registered isAppend (_events w !! name) c
                        (mkBinding c nh (if truthy data then data else VNull))]> (_events w)).
Proof.
  intros Hr Hon.
  destruct (normalizeHandler this handler VUndefined w) as [[nh| |] w1] eqn:Hn.
  - rewrite (on_run _ _ _ _ _ _ _ _ _ _ Hr Hn) in Hon. injection Hon as <-.
    exists nh, w1. split; reflexivity.
  - exfalso. revert Hon. unfold on.
    rewrite (bind_ok (lift (resolve cls)) _ w c w) by (unfold lift; rewrite Hr; reflexivity).
    unfold bind at 1. rewrite Hn. discriminate.
  - exfalso. revert Hon. unfold on.
    rewrite (bind_ok (lift (resolve cls)) _ w c w) by (unfold lift; rewrite Hr; reflexivity).
    unfold bind at 1. rewrite Hn. discriminate.
Qed.

(** X5. After an [on] that returns, in either mode and with any handler,
    [hasHandlers] for the same class and name answers true. *)
Theorem hasHandlers_after_on `{Host} (w w' : world) (this : loc) (cls c : value)
    (name : string) (handler data isAppend : value) :
  resolve cls = Ok c ->
  on this cls name handler data isAppend w = (Ok tt, w') ->
  hasHandlers w' cls name = Ok true.
Proof.
  intros Hr Hon. destruct (on_inv _ _ _ _ _ _ _ _ _ Hr Hon) as (nh & w1 & _ & ->).
  unfold hasHandlers. simpl _events. rewrite lookup_insert_eq, Hr. simpl res_bind.
  unfold walk_bound. simpl hasHandlers_loop.
  destruct (find_bound_in _ _ (registered_bound isAppend (_events w !! name) c nh
                                 (if truthy data then data else VNull))) as [i ->].
  reflexivity.
Qed.

(** ** [hasHandlers] in full *)

(** X6. For a name that has a list, [hasHandlers] answers true exactly
    when the class itself or one of the objects up its prototype chain is
    the bound type of a binding of the list: parents are checked, children
    are not. *)
Theorem hasHandlers_checks_the_chain `{Host} (w : world) (cls c : value) (name : string)
    (ls : list value) (items : list binding) :
  resolve cls = Ok c ->
  levels (objects w) c = Some ls ->
  _events w !! name = Some items ->
  hasHandlers w cls name =
    Ok (existsb (fun u => existsb (fun i => strict_eq (item0 i) u) items) ls).
Proof.
  intros Hr Hl He. unfold hasHandlers. rewrite He, Hr. cbn [res_bind].
  apply hasHandlers_loop_levels, Hl.
Qed.

(** ** Edge cases of dispatch *)

(** X7. [on] accepts a missing or falsy handler: for a name that has a
    list, or that is not a property name inherited from [Object.prototype],
    it returns and leaves under the name what a registration of the null
    handler leaves. A [trigger] that reaches such a binding first at its
    starting level raises [TypeError] before any handler is called. *)
Theorem null_handler_is_registered_and_breaks_trigger `{Host} (w : world) (this : loc)
    (ename : string) :
  (forall cls c handler data isAppend,
     is_Some (_events w !! ename) \/ inherited_name ename = false ->
     truthy handler = false ->
     resolve cls = Ok c ->
     fst (on this cls ename handler data isAppend w) = Ok tt /\
     bindings (snd (on this cls ename handler data isAppend w)) ename =
       registered isAppend (_events w !! ename) c
         (mkBinding c VNull (if truthy data then data else VNull))) /\
  (forall (x : loc) (c : value) (l1 l2 : list binding) (b : binding) (event : option Event),
     GetV (objects w) (VRef x) "constructor" = Ok c ->
     _events w !! ename = Some (l1 ++ b :: l2) ->
     item0 b = c ->
     ~ In c (bound_types l1) ->
     item1 b = VNull ->
     trigger w (VRef x) ename event = ([], Err TypeError)).
Proof.
  split.
  - intros cls c handler data isAppend _ Ht Hr.
    rewrite (on_run this cls c ename handler data isAppend w VNull w Hr)
      by (unfold normalizeHandler; rewrite Ht; reflexivity).
    split; [reflexivity|]. cbn [snd]. apply bindings_insert.
  - intros x c l1 l2 b event Hx He Hb Hfirst Hnull.
    rewrite (trigger_object _ _ _ _ _ _ He Hx). unfold walk_bound. simpl trigger_loop.
    rewrite (forEach_skip _ _ _ _ _ _ Hfirst), (forEach_hit _ _ _ _ _ Hb).
    unfold invoke. rewrite Hnull. reflexivity.
Qed.


(** ** A handler that throws *)

Lemma forEach_err `{Host} hp items v event h calls r :
  forEach hp items v event h = (calls, r) ->
  forall pre i post e,
    calls = pre ++ i :: post ->
    Call hp (callee i) (receiver i) (argument i) = Err e ->
    post = [] /\ r = Err e.
Proof.
  revert event h calls r. induction items as [|it items IH]; simpl; intros event h calls r Hf.
  - injection Hf as <- <-. intros pre0 i1 post1 e1 Heq; destruct pre0; discriminate.
  - destruct (h || negb (strict_eq (item0 it) v)); [apply (IH _ _ _ _ Hf)|].
    destruct (invoke hp it (set_data (item2 it) event)) as [c0 r0] eqn:Hi.
    destruct (invoke_cases _ _ _ _ _ Hi) as [[-> Hn]|(i0 & -> & _ & Hr)].
    + destruct r0 as [e0| |]; [destruct (Hn e0); reflexivity|..];
        injection Hf as <- <-; intros pre0 i1 post1 e1 Heq; destruct pre0; discriminate.
    + destruct r0 as [e0|x0|].
      * destruct (forEach hp items v e0 (handled e0)) as [c1 r1] eqn:Hrest.
        injection Hf as <- <-. intros [|j pre] i post e Heq Hc.
        -- injection Heq as <- _. rewrite <- Hr in Hc. discriminate.
        -- injection Heq as _ Heq. apply (IH _ _ _ _ Hrest pre i post e Heq Hc).
      * injection Hf as <- <-. intros [|j pre] i post e Heq Hc.
        -- injection Heq as <- <-. rewrite <- Hr in Hc. injection Hc as <-.
           split; reflexivity.
        -- injection Heq as _ Heq. destruct pre; discriminate.
      * injection Hf as <- <-. intros [|j pre] i post e Heq Hc.
        -- injection Heq as <- _. rewrite <- Hr in Hc. discriminate.
        -- injection Heq as _ Heq. destruct pre; discriminate.
Qed.

Lemma forEach_ok_no_err `{Host} hp items v event h calls r0 :
  forEach hp items v event h = (calls, Ok r0) ->
  forall i e, In i calls -> Call hp (callee i) (receiver i) (argument i) <> Err e.
Proof.
  intros Hf i e Hin Hc. apply in_split in Hin as (pre & post & ->).
  destruct (forEach_err _ _ _ _ _ _ _ Hf pre i post e eq_refl Hc) as [_ Habs]. discriminate.
Qed.

Lemma trigger_loop_err `{Host} fuel hp items v event calls r :
  trigger_loop fuel hp items v event = (calls, r) ->
  forall pre i post e,
    calls = pre ++ i :: post ->
    Call hp (callee i) (receiver i) (argument i) = Err e ->
    post = [] /\ r = Err e.
Proof.
  revert v event calls r. induction fuel as [|fuel IH]; simpl; intros v event calls r Ht.
  - injection Ht as <- <-. intros pre0 i1 post1 e1 Heq; destruct pre0; discriminate.
  - destruct (forEach hp items v event false) as [c0 r0] eqn:Hf.
    pose proof (forEach_err _ _ _ _ _ _ _ Hf) as Herr.
    destruct r0 as [[e0 h]|x0|];
      [|injection Ht as <- <-; intros pre i post e' Heq Hc;
        destruct (Herr pre i post e' Heq Hc) as [-> Hr'];
        (discriminate || (injection Hr' as ->; split; reflexivity))..].
    assert (Hlast : forall pre i post e, c0 = pre ++ i :: post ->
              Call hp (callee i) (receiver i) (argument i) = Err e -> False).
    { intros pre i post e Heq Hc. destruct (Herr pre i post e Heq Hc) as [_ Habs].
      discriminate. }
    assert (Hstop : forall r', r = r' -> calls = c0 ->
              forall pre i post e, calls = pre ++ i :: post ->
                Call hp (callee i) (receiver i) (argument i) = Err e ->
                post = [] /\ r = Err e).
    { intros r' _ -> pre i post e Heq Hc. destruct (Hlast pre i post e Heq Hc). }
    destruct h; [injection Ht as <- <-; apply (Hstop _ eq_refl eq_refl)|].
    destruct (getPrototypeOf hp v) as [p| |];
      [|injection Ht as <- <-; apply (Hstop _ eq_refl eq_refl)..].
    destruct (negb (truthy p)); [injection Ht as <- <-; apply (Hstop _ eq_refl eq_refl)|].
    destruct (trigger_loop fuel hp items p e0) as [c1 r1] eqn:Hrec.
    injection Ht as <- <-. intros pre i post e Heq Hc.
    symmetry in Heq. apply app_eq_app in Heq as [l [[_ Heq]|[Ha Heq]]].
    + apply (IH _ _ _ _ Hrec l i post e Heq Hc).
    + destruct l as [|j l].
      * simpl in Heq. apply (IH _ _ _ _ Hrec [] i post e (eq_sym Heq) Hc).
      * injection Heq as -> _. destruct (Hlast pre j l e Ha Hc).
Qed.

(** X9. A handler that throws ends the dispatch: its call is the last
    handler call of the [trigger], and the [trigger] raises that same
    exception to its caller. *)
Theorem handler_exception_ends_trigger `{Host} (w : world) (cls : value) (ename : string)
    (event : option Event) (pre post : list invocation) (i : invocation) (e : exn) :
  fst (trigger w cls ename event) = pre ++ i :: post ->
  Call (objects w) (callee i) (receiver i) (argument i) = Err e ->
  post = [] /\ snd (trigger w cls ename event) = Err e.
Proof.
  unfold trigger.
  destruct (_events w !! ename) as [items|]; [|destruct pre; discriminate].
  destruct (resolve cls) as [c| |]; [|destruct pre; discriminate..].
  destruct (if _isObject c then GetV (objects w) c "constructor" else Ok c) as [c'| |];
    [|destruct pre; discriminate..].
  match goal with |- context [trigger_loop ?f ?h ?it ?c ?ev] =>
    destruct (trigger_loop f h it c ev) as [calls r] eqn:Ht end.
  simpl. intros Heq Hc.
  destruct (trigger_loop_err _ _ _ _ _ _ _ Ht pre i post e Heq Hc) as [-> ->].
  split; reflexivity.
Qed.

(** ** Which handlers run, and in which order *)

Lemma invoke_origin `{Host} hp item event calls r i :
  invoke hp item event = (calls, r) -> In i calls ->
  GetV hp (item1 item) "callback" = Ok (VRef (callee i)) /\
  GetV hp (item1 item) "context" = Ok (receiver i) /\
  argument i = event.
Proof.
  unfold invoke. intros Hi Hin.
  destruct (GetV hp (item1 item) "callback") as [f| |];
    [|injection Hi as <- _; destruct Hin..].
  destruct f as [| | | | |l]; try (injection Hi as <- _; destruct Hin);
    destruct (GetV hp (item1 item) "context") as [c| |];
    try (injection Hi as <- _; destruct Hin).
  destruct (_isFunction hp (VRef l)); injection Hi as <- _; [|destruct Hin].
  destruct Hin as [<-|[]]. repeat split; reflexivity.
Qed.

Lemma forEach_origin `{Host} hp items v event h calls r i :
  forEach hp items v event h = (calls, r) -> In i calls ->
  exists b, In b items /\ item0 b = v /\ call_of hp i b.
Proof.
  revert event h calls r. induction items as [|it items IH]; simpl; intros event h calls r Hf Hin.
  - injection Hf as <- _. destruct Hin.
  - destruct h; simpl in Hf.
    { destruct (IH _ _ _ _ Hf Hin) as (b & Hb & Hrest). exists b. split; [right; exact Hb|exact Hrest]. }
    destruct (strict_eq (item0 it) v) eqn:Hv; simpl in Hf.
    2:{ destruct (IH _ _ _ _ Hf Hin) as (b & Hb & Hrest).
        exists b. split; [right; exact Hb|exact Hrest]. }
    apply bool_decide_eq_true in Hv.
    destruct (invoke hp it (set_data (item2 it) event)) as [c0 r0] eqn:Hi.
    assert (Hhere : In i c0 -> exists b, In b (it :: items) /\ item0 b = v /\ call_of hp i b).
    { intros Hi0. destruct (invoke_origin _ _ _ _ _ _ Hi Hi0) as (Hcb & Hc & Ha).
      exists it. split; [left; reflexivity|]. split; [exact Hv|].
      split; [exact Hcb|]. split; [exact Hc|]. rewrite Ha. reflexivity. }
    destruct r0 as [e0| |]; [|injection Hf as <- _; apply Hhere, Hin..].
    destruct (forEach hp items v e0 (handled e0)) as [c1 r1] eqn:Hrest.
    injection Hf as <- _. apply in_app_or in Hin as [Hin|Hin]; [apply Hhere, Hin|].
    destruct (IH _ _ _ _ Hrest Hin) as (b & Hb & Hr).
    exists b. split; [right; exact Hb|exact Hr].
Qed.

Lemma dispatch_origin `{Host} hp items ls event i :
  In i (fst (dispatch hp items ls event)) ->
  exists b, In b items /\ In (item0 b) ls /\ call_of hp i b.
Proof.
  revert event. induction ls as [|v ls IH]; simpl; intros event Hin; [destruct Hin|].
  destruct (forEach hp items v event false) as [c0 r0] eqn:Hf.
  assert (Hhere : In i c0 -> exists b, In b items /\ In (item0 b) (v :: ls) /\ call_of hp i b).
  { intros Hi0. destruct (forEach_origin _ _ _ _ _ _ _ _ Hf Hi0) as (b & Hb & Hv & Hc).
    exists b. split; [exact Hb|]. split; [left; symmetry; exact Hv|exact Hc]. }
  destruct r0 as [[e0 h]| |]; [|apply Hhere, Hin..].
  destruct h; [apply Hhere, Hin|].
  destruct (dispatch hp items ls e0) as [c1 r1] eqn:Hrec. simpl in Hin.
  apply in_app_or in Hin as [Hin|Hin]; [apply Hhere, Hin|].
  specialize (IH e0). rewrite Hrec in IH. destruct (IH Hin) as (b & Hb & Hl & Hc).
  exists b. split; [exact Hb|]. split; [right; exact Hl|exact Hc].
Qed.

(** X10. Every handler a [trigger] on an object calls is the handler of a
    binding of the name whose bound type is the object's constructor or an
    object up the constructor's prototype chain, called on that binding's
    context with that binding's data: bindings of other classes, subclasses
    among them, are never called. *)
Theorem trigger_calls_only_bindings_on_the_chain `{Host} (w : world) (x : loc) (c : value)
    (ename : string) (event : option Event) (ls : list value) (i : invocation) :
  GetV (objects w) (VRef x) "constructor" = Ok c ->
  levels (objects w) c = Some ls ->
  In i (fst (trigger w (VRef x) ename event)) ->
  exists b, In b (bindings w ename) /\ In (item0 b) ls /\ call_of (objects w) i b.
Proof.
  intros Hx Hl Hin. unfold bindings.
  destruct (_events w !! ename) as [items|] eqn:He.
  - rewrite (trigger_object_levels _ _ _ _ _ _ _ He Hx Hl) in Hin.
    destruct (dispatch (objects w) items ls (prepared ename (VRef x) event)) as [calls r] eqn:Hd.
    simpl in Hin. apply (dispatch_origin (objects w) items ls (prepared ename (VRef x) event)).
    rewrite Hd. exact Hin.
  - unfold trigger in Hin. rewrite He in Hin. destruct Hin.
Qed.





(** * Further properties of normalization *)

(** ** The result is normalized *)

Lemma yields_handler_bind {A} (m : M A) (k : A -> M value) :
  (forall a, yields_handler (k a)) -> yields_handler (bind m k).
Proof.
  intros Hk w r w1. unfold bind. destruct (m w) as [[a| |] w0]; try discriminate.
  apply Hk.
Qed.

Lemma yields_handler_throw e : yields_handler (throw e).
Proof. intros w r w1. discriminate. Qed.

Lemma yields_handler_new_object c f :
  yields_handler (new_object [("context", c); ("callback", f)]).
Proof.
  intros w r w1 [= <- <-]. right. simpl. rewrite heap_lookup_alloc. reflexivity.
Qed.

Ltac yields_handler_step :=
  first
    [ apply yields_handler_new_object | apply yields_handler_throw
    | apply yields_handler_bind; intros ?
    | match goal with
      | |- yields_handler (if ?b then _ else _) => destruct b
      | |- yields_handler (match ?x with _ => _ end) => destruct x
      end ].

Lemma normalizeHandler_normalized `{Host} this handler context w r w1 :
  normalizeHandler this handler context w = (Ok r, w1) -> is_normalized (objects w1) r.
Proof.
  unfold normalizeHandler. destruct (truthy handler); cbn [negb].
  2:{ intros [= <- <-]. left. reflexivity. }
  rewrite (bind_ok get_heap _ w (objects w) w eq_refl).
  destruct (_isObject handler && _has (objects w) handler "callback"
            && _has (objects w) handler "context") eqn:Hc.
  - intros [= <- <-]. right. exact Hc.
  - clear Hc. remember (objects w) as hp eqn:Hhp. clear Hhp.
    intros Hrun. refine ((_ : yields_handler _) w r w1 Hrun).
    repeat yields_handler_step.
Qed.

Lemma normalizeHandler_of_normalized `{Host} this r context w :
  is_normalized (objects w) r -> normalizeHandler this r context w = (Ok r, w).
Proof.
  intros [->|Hn]; [reflexivity|]. unfold normalizeHandler.
  assert (Ht : truthy r = true) by (destruct r; try discriminate; reflexivity).
  rewrite Ht. cbn [negb]. rewrite (bind_ok get_heap _ w (objects w) w eq_refl), Hn.
  reflexivity.
Qed.

(** X12. Whatever [normalizeHandler] returns is null or an object with own
    [callback] and [context] properties, and normalizing that result again
    (on any class, with any context) returns it unchanged and changes
    nothing. *)
Theorem normalizeHandler_idempotent `{Host} (w w1 : world) (this : loc)
    (handler context r : value) :
  normalizeHandler this handler context w = (Ok r, w1) ->
  is_normalized (objects w1) r /\
  forall this' context', normalizeHandler this' r context' w1 = (Ok r, w1).
Proof.
  intros Hn. pose proof (normalizeHandler_normalized _ _ _ _ _ _ Hn) as Hr.
  split; [exact Hr|]. intros this' context'. apply normalizeHandler_of_normalized, Hr.
Qed.

(** ** What normalization leaves in place *)

Lemma heap_kept_refl t hp : heap_kept t hp hp.
Proof. intros l o Hl. exists o. repeat split; trivial. Qed.

Lemma heap_kept_trans t hp1 hp2 hp3 :
  heap_kept t hp1 hp2 -> heap_kept t hp2 hp3 -> heap_kept t hp1 hp3.
Proof.
  intros H12 H23 l o Hl. destruct (H12 l o Hl) as (o2 & Hl2 & Hc2 & Hp2 & Hk2).
  destruct (H23 l o2 Hl2) as (o3 & Hl3 & Hc3 & Hp3 & Hk3).
  exists o3. split; [exact Hl3|]. split; [congruence|]. split; [congruence|].
  intros k Hk. rewrite (Hk3 k Hk). apply Hk2, Hk.
Qed.

Lemma keeps_heap_bind {A B} t (m : M A) (k : A -> M B) :
  keeps_heap t m -> (forall a, keeps_heap t (k a)) -> keeps_heap t (bind m k).
Proof.
  intros Hm Hk w. unfold bind. specialize (Hm w).
  destruct (m w) as [[a| |] w0]; simpl in *; [|exact Hm..].
  eapply heap_kept_trans; [exact Hm|apply Hk].
Qed.

Lemma keeps_heap_ret {A} t (a : A) : keeps_heap t (ret a).
Proof. intros w. apply heap_kept_refl. Qed.

Lemma keeps_heap_lift {A} t (r : res A) : keeps_heap t (lift r).
Proof. intros w. apply heap_kept_refl. Qed.

Lemma keeps_heap_getv t v k : keeps_heap t (getv v k).
Proof. intros w. apply heap_kept_refl. Qed.

Lemma keeps_heap_get_heap t : keeps_heap t get_heap.
Proof. intros w. apply heap_kept_refl. Qed.

Lemma keeps_heap_new_object t props : keeps_heap t (new_object props).
Proof.
  intros w l o Hl. exists o. simpl. rewrite (lookup_app_l_Some _ _ _ _ Hl).
  repeat split; trivial.
Qed.

Lemma keeps_heap_set_prop t v : keeps_heap t (set_prop t "0" v).
Proof.
  intros w. unfold set_prop. destruct t as [| | | | |a]; try apply heap_kept_refl.
  destruct (objects w !! a) as [oa|] eqn:Ha; [|apply heap_kept_refl].
  simpl. intros l o Hl. destruct (decide (l = a)) as [->|Hne].
  - rewrite Ha in Hl. injection Hl as <-. eexists.
    split; [eapply heap_lookup_insert, Ha|]. simpl. repeat split.
    intros k Hk. apply lookup_insert_ne. intros <-. apply (Hk eq_refl). reflexivity.
  - exists o. split; [|repeat split; trivial].
    change ((<[a := mkObject (o_class oa) (o_proto oa) (<["0" := v]> (o_props oa))]>
               (objects w : list object)) !! l = Some o).
    rewrite list_lookup_insert_ne by congruence. exact Hl.
Qed.

Ltac keeps_heap_step :=
  first
    [ apply keeps_heap_ret | apply keeps_heap_lift | apply keeps_heap_getv
    | apply keeps_heap_get_heap | apply keeps_heap_new_object
    | apply keeps_heap_set_prop
    | apply keeps_heap_bind; [|intros ?]
    | match goal with
      | |- keeps_heap _ (if ?b then _ else _) => destruct b
      | |- keeps_heap _ (match ?x with _ => _ end) => destruct x
      end ].

Lemma normalizeHandler_keeps_heap `{Host} this handler context :
  keeps_heap handler (normalizeHandler this handler context).
Proof.
  unfold normalizeHandler, is_pair, is_callable_pair, throw.
  repeat keeps_heap_step.
Qed.

(** How [on] and [off] end, by the outcome of normalization. *)
Lemma on_world `{Host} this cls c name handler data isAppend w r w1 :
  resolve cls = Ok c ->
  normalizeHandler this handler VUndefined w = (r, w1) ->
  objects (snd (on this cls name handler data isAppend w)) = objects w1.
Proof.
  intros Hr Hn. rewrite (on_objects _ _ _ _ _ _ _ _ Hr), Hn. reflexivity.
Qed.

Lemma off_world `{Host} this cls c name handler w :
  resolve cls = Ok c ->
  objects (snd (off this cls name handler w)) =
  objects (snd (normalizeHandler this (if truthy handler then handler else VNull)
                  VUndefined w)).
Proof.
  intros Hr. destruct (truthy handler) eqn:Ht.
  - apply (off_objects _ _ _ _ _ _ Hr Ht).
  - unfold off. rewrite Ht.
    rewrite (bind_ok (lift (resolve cls)) _ w c w) by (unfold lift; rewrite Hr; reflexivity).
    rewrite (bind_ok (normalizeHandler this VNull VUndefined) _ w VNull w) by reflexivity.
    rewrite (bind_ok get_events _ w (_events w) w eq_refl).
    destruct (_events w !! name) as [items|]; [|reflexivity].
    rewrite (bind_ok get_heap _ w (objects w) w eq_refl).
    unfold bind at 1. unfold lift at 1.
    destruct (filter_res _ items) as [kept| |]; reflexivity.
Qed.

Lemma resolve_fails_on `{Host} this cls name handler data isAppend w :
  (forall c, resolve cls <> Ok c) ->
  snd (on this cls name handler data isAppend w) = w.
Proof.
  intros Hr. unfold on, bind, lift.
  destruct (resolve cls) as [c| |]; [destruct (Hr c); reflexivity|reflexivity..].
Qed.

Lemma resolve_fails_off `{Host} this cls name handler w :
  (forall c, resolve cls <> Ok c) ->
  snd (off this cls name handler w) = w.
Proof.
  intros Hr. unfold off, bind, lift.
  destruct (resolve cls) as [c| |]; [destruct (Hr c); reflexivity|reflexivity..].
Qed.

Lemma registration_keeps_the_heap_aux `{Host} (w : world) (this : loc) (cls : value)
    (name : string) (handler : value) :
  (forall context,
     heap_kept handler (objects w)
       (objects (snd (normalizeHandler this handler context w)))) /\
  (forall data isAppend,
     heap_kept handler (objects w)
       (objects (snd (on this cls name handler data isAppend w)))) /\
  heap_kept handler (objects w) (objects (snd (off this cls name handler w))).
Proof.
  split; [intros context; apply normalizeHandler_keeps_heap|]. split.
  - intros data isAppend. destruct (resolve cls) as [c| |] eqn:Hr.
    + rewrite (on_objects _ _ _ _ _ _ _ _ Hr). apply normalizeHandler_keeps_heap.
    + rewrite resolve_fails_on by (rewrite Hr; discriminate). apply heap_kept_refl.
    + rewrite resolve_fails_on by (rewrite Hr; discriminate). apply heap_kept_refl.
  - destruct (resolve cls) as [c| |] eqn:Hr.
    + rewrite (off_world _ _ _ _ _ _ Hr). destruct (truthy handler).
      * apply normalizeHandler_keeps_heap.
      * apply heap_kept_refl.
    + rewrite resolve_fails_off by (rewrite Hr; discriminate). apply heap_kept_refl.
    + rewrite resolve_fails_off by (rewrite Hr; discriminate). apply heap_kept_refl.
Qed.

(** X13. [normalizeHandler] never removes an object from the heap and
    never changes the class, the prototype or an own property of an existing
    object, with one exception: element 0 of the handler array itself. This
    holds on every path, failing ones included. *)
Theorem normalization_keeps_the_heap `{Host} (w : world) (this : loc)
    (handler context : value) :
  heap_kept handler (objects w) (objects (snd (normalizeHandler this handler context w))).
Proof. apply normalizeHandler_keeps_heap. Qed.

(** X14. The pair form [[fn, contextObject]] normalizes to a fresh object
    whose callback is the function and whose context is the object; the
    context argument is ignored and, unlike for the pair of strings, the
    caller's array and the rest of the heap are left as they were. *)
Theorem callable_pair_normalization `{Host} (w : world) (this a f c : loc) (o : object)
    (context : value) :
  callable_pair_at (objects w) a o f c ->
  normalizeHandler this (VRef a) context w =
    (Ok (VRef (List.length (objects w))),
     mkWorld (objects w ++ [handler_object (VRef c) (VRef f)]) (_events w)).
Proof.
  intros (Ha & Hc & Hlen & H0 & H1 & Hf & Hn).
  assert (Glen : getv (VRef a) "length" w = (Ok (VNumber 2), w))
    by (apply getv_ok, (Get_own _ _ _ _ _ Ha Hlen)).
  assert (G0 : getv (VRef a) "0" w = (Ok (VRef f), w))
    by (apply getv_ok, (Get_own _ _ _ _ _ Ha H0)).
  assert (G1 : getv (VRef a) "1" w = (Ok (VRef c), w))
    by (apply getv_ok, (Get_own _ _ _ _ _ Ha H1)).
  assert (Harr : _isArray (objects w) (VRef a) = true).
  { unfold _isArray, class_of. rewrite Ha. simpl. rewrite Hc. reflexivity. }
  assert (Hpair : is_pair (VRef a) w = (Ok true, w)).
  { unfold is_pair. rewrite (bind_ok get_heap _ w (objects w) w eq_refl), Harr.
    rewrite (bind_ok _ _ _ _ _ Glen). reflexivity. }
  assert (Hcp : is_callable_pair (VRef a) w = (Ok true, w)).
  { unfold is_callable_pair. rewrite (bind_ok _ _ _ _ _ G0).
    rewrite (bind_ok get_heap _ w (objects w) w eq_refl), Hf.
    rewrite (bind_ok _ _ _ _ _ G1). reflexivity. }
  unfold normalizeHandler. cbn [truthy negb _isObject andb].
  rewrite (bind_ok get_heap _ w (objects w) w eq_refl), Hn.
  rewrite (bind_ok _ _ _ _ _ Hpair), (bind_ok _ _ _ _ _ Hcp).
  rewrite (bind_ok _ _ _ _ _ G1), (bind_ok _ _ _ _ _ G0). reflexivity.
Qed.

(** ** The registry holds normalized handlers *)

Lemma is_normalized_kept t hp hp' r :
  is_normalized hp r -> heap_kept t hp hp' -> is_normalized hp' r.
Proof.
  intros [->|Hn] Hk; [left; reflexivity|]. right.
  destruct r as [| | | | |l]; try discriminate. simpl in *.
  destruct (hp !! l) as [o|] eqn:Hl; [|discriminate].
  destruct (Hk l o Hl) as (o' & -> & _ & _ & Hp).
  rewrite !Hp by (intros _; discriminate). exact Hn.
Qed.

Lemma registered_in isAppend old c item b :
  In b (registered isAppend old c item) -> b = item \/ In b (default [] old).
Proof.
  unfold registered. destruct (truthy _ || negb _).
  - destruct (List.find _ _); [right; assumption|].
    intros Hin. apply in_app_or in Hin as [Hin|[<-|[]]]; [right; exact Hin|left; reflexivity].
  - intros [<-|Hin]; [left; reflexivity|right; exact Hin].
Qed.

Lemma off_events_sublist `{Host} this cls name handler w :
  _events (snd (off this cls name handler w)) = _events w \/
  exists items kept,
    _events w !! name = Some items /\ kept `sublist_of` items /\
    _events (snd (off this cls name handler w)) = <[name := kept]> (_events w).
Proof.
  pose proof (normalizeHandler_keeps_events this
                (if truthy handler then handler else VNull) VUndefined w) as Hk.
  unfold off.
  destruct (resolve cls) as [c| |] eqn:Hr; [|left; reflexivity..].
  rewrite (bind_ok (lift (Ok c)) _ w c w) by reflexivity.
  destruct (normalizeHandler this (if truthy handler then handler else VNull) VUndefined w)
    as [[nh| |] w1] eqn:Hn; simpl in Hk;
    [|left; unfold bind at 1; rewrite Hn; exact Hk..].
  rewrite (bind_ok _ _ _ _ _ Hn).
  rewrite (bind_ok get_events _ w1 (_events w1) w1 eq_refl).
  destruct (_events w1 !! name) as [items|] eqn:He; [|left; exact Hk].
  rewrite (bind_ok get_heap _ w1 (objects w1) w1 eq_refl).
  destruct (filter_res (off_keeps (objects w1) c nh) items) as [kept| |] eqn:Hf;
    [|left; exact Hk..].
  rewrite (bind_ok (lift (Ok kept)) _ w1 kept w1) by reflexivity.
  right. exists items, kept. rewrite <- Hk. split; [exact He|].
  split; [apply (filter_res_sound _ _ _ Hf)|]. reflexivity.
Qed.

(** X15. If every binding of the registry holds a normalized handler
    (null, or an object with own [callback] and [context]), so does every
    binding after [on] and after [off], on every path: [on] only ever stores
    the result of normalization, and neither operation strips an existing
    handler of its keys. *)
Theorem registry_stays_normalized `{Host} (w : world) (this : loc) (cls : value)
    (name : string) (handler data isAppend : value) :
  registry_normalized w ->
  registry_normalized (snd (on this cls name handler data isAppend w)) /\
  registry_normalized (snd (off this cls name handler w)).
Proof.
  intros Hw. split.
  - destruct (resolve cls) as [c| |] eqn:Hr;
      [|rewrite resolve_fails_on by (rewrite Hr; discriminate); exact Hw..].
    pose proof (normalizeHandler_keeps_heap this handler VUndefined w) as Hk.
    destruct (normalizeHandler this handler VUndefined w) as [r w1] eqn:Hn. simpl in Hk.
    intros ename items b He Hb.
    rewrite (on_world _ _ _ _ _ _ _ _ _ _ Hr Hn).
    destruct r as [nh| |].
    + rewrite (on_run _ _ _ _ _ _ _ _ _ _ Hr Hn) in He. simpl in He.
      destruct (decide (ename = name)) as [->|Hne].
      * rewrite lookup_insert_eq in He. injection He as <-.
        apply registered_in in Hb as [->|Hb].
        -- simpl. apply (normalizeHandler_normalized _ _ _ _ _ _ Hn).
        -- destruct (_events w !! name) as [old|] eqn:Hold; [|destruct Hb].
           eapply is_normalized_kept; [apply (Hw name old b Hold Hb)|exact Hk].
      * rewrite lookup_insert_ne in He by congruence.
        eapply is_normalized_kept; [apply (Hw ename items b He Hb)|exact Hk].
    + rewrite (on_fails _ _ _ _ _ _ _ _ _ _ Hr Hn) in He by discriminate.
      eapply is_normalized_kept; [apply (Hw ename items b He Hb)|exact Hk].
    + rewrite (on_fails _ _ _ _ _ _ _ _ _ _ Hr Hn) in He by discriminate.
      eapply is_normalized_kept; [apply (Hw ename items b He Hb)|exact Hk].
  - pose proof (proj2 (proj2 (registration_keeps_the_heap_aux w this cls name handler))) as Hk.
    intros ename items b He Hb.
    destruct (off_events_sublist this cls name handler w) as [Heq|(old & kept & Hold & Hs & Heq)].
    + rewrite Heq in He. eapply is_normalized_kept; [apply (Hw ename items b He Hb)|exact Hk].
    + rewrite Heq in He. destruct (decide (ename = name)) as [->|Hne].
      * rewrite lookup_insert_eq in He. injection He as <-.
        assert (Hin : In b old).
        { apply list_elem_of_In. eapply elem_of_sublist; [|exact Hs].
          apply list_elem_of_In, Hb. }
        eapply is_normalized_kept; [apply (Hw name old b Hold Hin)|exact Hk].
      * rewrite lookup_insert_ne in He by congruence.
        eapply is_normalized_kept; [apply (Hw ename items b He Hb)|exact Hk].
Qed.

(** * Properties of [ModelAttributeSchema] *)

Lemma strict_eq_true v w : strict_eq v w = true -> v = w.
Proof. unfold strict_eq. apply bool_decide_eq_true. Qed.

(** X16. With jsType ['string'], ['number'] or ['boolean'], whatever
    [typecast] returns is null, or a value whose [typeof] is the jsType, or
    the argument itself when it is an instance of [Expression]. *)
Theorem typecast_result_has_the_column_type `{Host} `{Library}
    (this : ModelAttributeSchema.schema) (hp : heap) (v r : value) :
  In (ModelAttributeSchema.jsType this) [VString "string"; VString "number"; VString "boolean"] ->
  ModelAttributeSchema.typecast this hp v = Ok r ->
  r = VNull \/
  VString (typeof hp r) = ModelAttributeSchema.jsType this \/
  (r = v /\ instanceof hp v Expression = Ok true).
Proof.
  intros Hjs. unfold ModelAttributeSchema.typecast.
  destruct (strict_eq v (VString "") && _); [intros [= <-]; left; reflexivity|].
  destruct (strict_eq v VNull) eqn:Hnull.
  { intros [= <-]. left. apply strict_eq_true, Hnull. }
  destruct (strict_eq (VString (typeof hp v)) (ModelAttributeSchema.jsType this)) eqn:Hty.
  { intros [= <-]. right. left. apply strict_eq_true, Hty. }
  destruct (instanceof hp v Expression) as [[|]| |] eqn:Hi; simpl; try discriminate.
  { intros [= <-]. right. right. split; reflexivity. }
  unfold ModelAttributeSchema.convert.
  destruct Hjs as [<-|[<-|[<-|[]]]]; simpl.
  - destruct (String_ hp v); simpl; try discriminate. intros [= <-]. right. left. reflexivity.
  - destruct v; try (destruct (String_ hp _); simpl; try discriminate);
      intros [= <-]; right; left; reflexivity.
  - intros [= <-]. right. left. reflexivity.
Qed.

(** X18. [typecast] is idempotent: applied to its own result it returns
    that result, provided the result is not the empty string of a column
    whose type is not text, string or binary (which a second pass turns into
    null). *)
Theorem typecast_idempotent `{Host} `{Library}
    (this : ModelAttributeSchema.schema) (hp : heap) (v r : value) :
  ModelAttributeSchema.typecast this hp v = Ok r ->
  r <> VString "" \/ ModelAttributeSchema.textual (ModelAttributeSchema.type this) = true ->
  ModelAttributeSchema.typecast this hp r = Ok r.
Proof.
  intros Hr Hne.
  assert (Hfirst : strict_eq r (VString "")
                   && negb (ModelAttributeSchema.textual (ModelAttributeSchema.type this))
                   = false).
  { destruct Hne as [Hne| ->]; [|apply andb_false_r].
    unfold strict_eq. rewrite bool_decide_eq_false_2 by exact Hne. reflexivity. }
  assert (Hsame : forall u, VString (typeof hp u) = ModelAttributeSchema.jsType this ->
            u <> VString "" \/
            ModelAttributeSchema.textual (ModelAttributeSchema.type this) = true ->
            ModelAttributeSchema.typecast this hp u = Ok u).
  { intros u Hu Hu'. unfold ModelAttributeSchema.typecast.
    replace (strict_eq u (VString "") && _) with false.
    - destruct (strict_eq u VNull); [reflexivity|]. rewrite Hu.
      unfold strict_eq. rewrite bool_decide_eq_true_2 by reflexivity. reflexivity.
    - symmetry. destruct Hu' as [Hu'| ->]; [|apply andb_false_r].
      unfold strict_eq. rewrite bool_decide_eq_false_2 by exact Hu'. reflexivity. }
  revert Hr. unfold ModelAttributeSchema.typecast at 1.
  destruct (strict_eq v (VString "") && _) eqn:H1; [intros [= <-]; reflexivity|].
  destruct (strict_eq v VNull) eqn:Hnull.
  { intros [= <-]. unfold ModelAttributeSchema.typecast. rewrite H1, Hnull. reflexivity. }
  destruct (strict_eq (VString (typeof hp v)) (ModelAttributeSchema.jsType this)) eqn:Hty.
  { intros [= <-]. unfold ModelAttributeSchema.typecast. rewrite H1, Hnull, Hty. reflexivity. }
  destruct (instanceof hp v Expression) as [[|]| |] eqn:Hi; simpl; try discriminate.
  { intros [= <-]. unfold ModelAttributeSchema.typecast. rewrite H1, Hnull, Hty, Hi.
    reflexivity. }
  unfold ModelAttributeSchema.convert.
  destruct (strict_eq _ (VString "string")) eqn:Hs.
  { apply strict_eq_true in Hs.
    destruct (String_ hp v); simpl; try discriminate. intros [= <-].
    apply Hsame; [symmetry; exact Hs|exact Hne]. }
  destruct (strict_eq _ (VString "number")) eqn:Hn.
  { apply strict_eq_true in Hn.
    assert (Hnum : forall z, VNumber z = r -> ModelAttributeSchema.typecast this hp r = Ok r).
    { intros z <-. apply Hsame; [symmetry; exact Hn|left; discriminate]. }
    destruct v; try (destruct (String_ hp _); simpl; try discriminate);
      intros [= Hz]; apply (Hnum _ Hz). }
  destruct (strict_eq _ (VString "boolean")) eqn:Hb.
  { apply strict_eq_true in Hb. intros [= <-].
    apply Hsame; [symmetry; exact Hb|left; discriminate]. }
  intros [= <-]. unfold ModelAttributeSchema.typecast, ModelAttributeSchema.convert.
  rewrite H1, Hnull, Hty, Hi, Hs, Hn, Hb. reflexivity.
Qed.

(** X19. The empty string is cast to null exactly when the column type is
    not text, string or binary: for those three types the result is never
    null, for every other type it is null whatever the jsType. *)
Theorem typecast_of_empty_string `{Host} `{Library}
    (this : ModelAttributeSchema.schema) (hp : heap) :
  exists r,
    ModelAttributeSchema.typecast this hp (VString "") = Ok r /\
    (r = VNull <-> ModelAttributeSchema.textual (ModelAttributeSchema.type this) = false).
Proof.
  unfold ModelAttributeSchema.typecast.
  destruct (ModelAttributeSchema.textual (ModelAttributeSchema.type this)) eqn:Ht.
  - simpl.
    destruct (strict_eq (VString "string") (ModelAttributeSchema.jsType this)) eqn:Hty.
    { eexists. split; [reflexivity|]. split; discriminate. }
    simpl. unfold ModelAttributeSchema.convert.
    destruct (strict_eq _ (VString "string")); simpl.
    { eexists. split; [reflexivity|]. split; discriminate. }
    destruct (strict_eq _ (VString "number")); simpl.
    { eexists. split; [reflexivity|]. split; discriminate. }
    destruct (strict_eq _ (VString "boolean")); simpl;
      eexists; (split; [reflexivity|]); split; discriminate.
  - simpl. exists VNull. split; [reflexivity|]. split; reflexivity.
Qed.

Lemma strict_eq_false v w : strict_eq v w = false -> v <> w.
Proof. unfold strict_eq. apply bool_decide_eq_false. Qed.

Lemma set_attributes_nil (this : ModelAttributeSchema.schema) :
  ModelAttributeSchema.set_attributes this = [] <->
  ModelAttributeSchema.defaultValue this = VNull /\
  truthy (ModelAttributeSchema.isPrimaryKey this) = false /\
  ModelAttributeSchema.jsType this = VNull /\
  ModelAttributeSchema.name this = VNull.
Proof.
  unfold ModelAttributeSchema.set_attributes.
  destruct (strict_eq (ModelAttributeSchema.defaultValue this) VNull) eqn:Hd;
    destruct (truthy (ModelAttributeSchema.isPrimaryKey this)) eqn:Hp;
    destruct (strict_eq (ModelAttributeSchema.jsType this) VNull) eqn:Hj;
    destruct (strict_eq (ModelAttributeSchema.name this) VNull) eqn:Hn; simpl;
    repeat match goal with
           | E : strict_eq _ _ = true |- _ => apply strict_eq_true in E
           | E : strict_eq _ _ = false |- _ => apply strict_eq_false in E
           end;
    split; try discriminate; try (intros (? & ? & ? & ?); congruence); auto.
Qed.

Lemma set_attributes_values (this : ModelAttributeSchema.schema) k v :
  In (k, v) (ModelAttributeSchema.set_attributes this) -> v <> VNull /\ k <> "type".
Proof.
  unfold ModelAttributeSchema.set_attributes. intros Hin.
  repeat (apply in_app_or in Hin as [Hin|Hin]).
  - destruct (strict_eq (ModelAttributeSchema.defaultValue this) VNull) eqn:Hd; [destruct Hin|].
    destruct Hin as [[= <- <-]|[]]. split; [apply strict_eq_false, Hd|discriminate].
  - destruct (truthy (ModelAttributeSchema.isPrimaryKey this)) eqn:Hp; [|destruct Hin].
    destruct Hin as [[= <- <-]|[]]. split; [intros Hv; rewrite Hv in Hp|]; discriminate.
  - destruct (strict_eq (ModelAttributeSchema.jsType this) VNull) eqn:Hd; [destruct Hin|].
    destruct Hin as [[= <- <-]|[]]. split; [apply strict_eq_false, Hd|discriminate].
  - destruct (strict_eq (ModelAttributeSchema.name this) VNull) eqn:Hd; [destruct Hin|].
    destruct Hin as [[= <- <-]|[]]. split; [apply strict_eq_false, Hd|discriminate].
Qed.

(** X20. [toJSON] returns the bare type, allocating nothing, exactly when
    defaultValue is null, isPrimaryKey is falsy, jsType is null and name is
    null. Otherwise it returns a fresh object none of whose properties is
    null, and which has a [type] property exactly when the type is not
    null. *)
Theorem toJSON_is_bare_type_or_object_without_nulls (this : ModelAttributeSchema.schema)
    (w : world) :
  (ModelAttributeSchema.defaultValue this = VNull /\
   truthy (ModelAttributeSchema.isPrimaryKey this) = false /\
   ModelAttributeSchema.jsType this = VNull /\
   ModelAttributeSchema.name this = VNull ->
   ModelAttributeSchema.toJSON this w = (Ok (ModelAttributeSchema.type this), w)) /\
  (~ (ModelAttributeSchema.defaultValue this = VNull /\
      truthy (ModelAttributeSchema.isPrimaryKey this) = false /\
      ModelAttributeSchema.jsType this = VNull /\
      ModelAttributeSchema.name this = VNull) ->
   exists o,
     ModelAttributeSchema.toJSON this w =
       (Ok (VRef (List.length (objects w))), mkWorld (objects w ++ [o]) (_events w)) /\
     (forall k v, o_props o !! k = Some v -> v <> VNull) /\
     (is_Some (o_props o !! "type") <-> ModelAttributeSchema.type this <> VNull)).
Proof.
  split.
  - intros Hall. apply set_attributes_nil in Hall.
    unfold ModelAttributeSchema.toJSON. rewrite Hall. reflexivity.
  - intros Hsome. rewrite <- set_attributes_nil in Hsome.
    pose proof (set_attributes_values this) as Hvals.
    unfold ModelAttributeSchema.toJSON.
    destruct (ModelAttributeSchema.set_attributes this) as [|p l] eqn:Hattr;
      [destruct Hsome; reflexivity|].
    eexists. split; [reflexivity|]. cbn [o_props]. split.
    + intros k v Hk. apply elem_of_list_to_map_2, list_elem_of_In in Hk.
      apply in_app_or in Hk as [Hk|Hk]; [apply (Hvals k v Hk)|].
      destruct (strict_eq (ModelAttributeSchema.type this) VNull) eqn:Ht; [destruct Hk|].
      destruct Hk as [[= <- <-]|[]]. apply strict_eq_false, Ht.
    + split.
      * intros [v Hv]. apply elem_of_list_to_map_2, list_elem_of_In in Hv.
        apply in_app_or in Hv as [Hv|Hv]; [destruct (proj2 (Hvals _ _ Hv)); reflexivity|].
        destruct (strict_eq (ModelAttributeSchema.type this) VNull) eqn:Ht; [destruct Hv|].
        apply strict_eq_false, Ht.
      * intros Ht. apply not_eq_None_Some. intros Hnone.
        apply not_elem_of_list_to_map in Hnone. apply Hnone.
        rewrite fmap_app. apply elem_of_app. right.
        unfold strict_eq. rewrite bool_decide_eq_false_2 by exact Ht. simpl.
        apply list_elem_of_here.
Qed.

(** * The further properties on the sample program *)

Lemma off_without_handler_removes_class_witness :
  truthy VUndefined = false /\
  @resolve (demo_host []) (VRef demo_A) = Ok (VRef demo_A) /\
  fst (@off (demo_host []) demo_Event (VRef demo_A) "e" VUndefined demo_world_AB) = Ok true /\
  bindings (snd (@off (demo_host []) demo_Event (VRef demo_A) "e" VUndefined demo_world_AB)) "e"
    = [mkBinding (VRef demo_B) (VRef 25%nat) VNull].
Proof.
  split; [reflexivity|]. split; [reflexivity|].
  rewrite (@off_without_handler_removes_class (demo_host []) demo_world_AB demo_Event
             (VRef demo_A) (VRef demo_A) "e" VUndefined
             [mkBinding (VRef demo_A) (VRef 24%nat) VNull;
              mkBinding (VRef demo_B) (VRef 25%nat) VNull]);
    [split|..]; vm_compute; reflexivity.
Defined.

Lemma off_leaves_no_binding_of_class_witness :
  @resolve (demo_host []) (VRef demo_A) = Ok (VRef demo_A) /\
  ~ In (VRef demo_A)
      (bound_types
         (bindings (snd (@off (demo_host []) demo_Event (VRef demo_A) "e" (VRef demo_h1)
                           demo_world_AB)) "e")).
Proof.
  split; [reflexivity|].
  refine (proj1 (proj2 (@off_leaves_no_binding_of_class (demo_host []) demo_world_AB _
                          demo_Event (VRef demo_A) (VRef demo_A) "e" (VRef demo_h1)
                          [mkBinding (VRef demo_A) (VRef 24%nat) VNull;
                           mkBinding (VRef demo_B) (VRef 25%nat) VNull] true _ _ _)));
    vm_compute; reflexivity.
Defined.

(** The name ['f'] has no list while ['e'] has one: [off] for ['f'] returns
    false and the list of ['e'] stays. *)
Lemma off_of_unknown_name_witness :
  _events demo_world_A !! "f" = None /\
  inherited_name "f" = false /\
  @off (demo_host []) demo_Event (VRef demo_A) "f" VNull demo_world_A
    = (Ok false, demo_world_A).
Proof.
  split; [reflexivity|]. split; [reflexivity|].
  refine (proj2 (@off_of_unknown_name (demo_host []) demo_world_A demo_Event
                   (VRef demo_A) (VRef demo_A) "f" VNull _ _ _) VNull demo_world_A _);
    reflexivity.
Defined.

(** With lists under ['e'] and ['f']: a prepending [on] and an [off] for
    ['e'] change the list of ['e'] and leave the list of ['f'] as it was. *)
Lemma registration_leaves_other_names_witness :
  "f" <> "e" /\
  _events demo_world_two_names !! "f" = Some [mkBinding (VRef demo_B) (VRef 25%nat) VNull] /\
  bindings demo_world_two_names "e" = [mkBinding (VRef demo_A) (VRef 24%nat) VNull] /\
  bindings (snd (@on (demo_host []) demo_Event (VRef demo_A) "e" (VRef demo_h2)
                   VUndefined (VBool false) demo_world_two_names)) "e"
    = [mkBinding (VRef demo_A) (VRef 26%nat) VNull; mkBinding (VRef demo_A) (VRef 24%nat) VNull] /\
  bindings (snd (@off (demo_host []) demo_Event (VRef demo_A) "e" (VRef demo_h2)
                   demo_world_two_names)) "e" = [] /\
  _events (snd (@on (demo_host []) demo_Event (VRef demo_A) "e" (VRef demo_h2)
                  VUndefined (VBool false) demo_world_two_names)) !! "f"
    = _events demo_world_two_names !! "f" /\
  _events (snd (@off (demo_host []) demo_Event (VRef demo_A) "e" (VRef demo_h2)
                  demo_world_two_names)) !! "f"
    = _events demo_world_two_names !! "f".
Proof.
  split; [discriminate|]. split; [vm_compute; reflexivity|].
  split; [vm_compute; reflexivity|]. split; [vm_compute; reflexivity|].
  split; [vm_compute; reflexivity|].
  exact (@registration_leaves_other_names (demo_host []) demo_world_two_names demo_Event
           (VRef demo_A) "e" "f" (VRef demo_h2) VUndefined (VBool false)
           ltac:(discriminate)).
Defined.

Lemma hasHandlers_after_on_witness :
  @on (demo_host []) demo_Event (VRef demo_A) "e" (VRef demo_h1) VUndefined VUndefined demo_world
    = (Ok tt, demo_world_A) /\
  @hasHandlers (demo_host []) demo_world_A (VRef demo_A) "e" = Ok true.
Proof.
  assert (Hon : @on (demo_host []) demo_Event (VRef demo_A) "e" (VRef demo_h1)
                  VUndefined VUndefined demo_world = (Ok tt, demo_world_A))
    by (vm_compute; reflexivity).
  split; [exact Hon|].
  exact (@hasHandlers_after_on (demo_host []) demo_world demo_world_A demo_Event
           (VRef demo_A) (VRef demo_A) "e" (VRef demo_h1) VUndefined VUndefined eq_refl Hon).
Defined.

(** A binding on A is found from C, by the class and by the name of A;
    a binding on C is not found from A. *)
Lemma hasHandlers_checks_the_chain_witness :
  levels (objects demo_world_A) (VRef demo_C)
    = Some [VRef demo_C; VRef demo_B; VRef demo_A; VRef FunctionPrototype; VRef ObjectPrototype] /\
  _events demo_world_A !! "e" = Some [mkBinding (VRef demo_A) (VRef 24%nat) VNull] /\
  @hasHandlers (demo_host []) demo_world_A (VRef demo_C) "e" = Ok true /\
  @hasHandlers (demo_host []) demo_world_A (VString "app.A") "e" = Ok true /\
  @hasHandlers (demo_host []) demo_world_C (VRef demo_A) "e" = Ok false.
Proof.
  split; [vm_compute; reflexivity|]. split; [vm_compute; reflexivity|]. split; [|split].
  - rewrite (@hasHandlers_checks_the_chain (demo_host []) demo_world_A (VRef demo_C)
               (VRef demo_C) "e"
               [VRef demo_C; VRef demo_B; VRef demo_A; VRef FunctionPrototype;
                VRef ObjectPrototype]
               [mkBinding (VRef demo_A) (VRef 24%nat) VNull]); vm_compute; reflexivity.
  - rewrite (@hasHandlers_checks_the_chain (demo_host []) demo_world_A (VString "app.A")
               (VRef demo_A) "e"
               [VRef demo_A; VRef FunctionPrototype; VRef ObjectPrototype]
               [mkBinding (VRef demo_A) (VRef 24%nat) VNull]); vm_compute; reflexivity.
  - rewrite (@hasHandlers_checks_the_chain (demo_host []) demo_world_C (VRef demo_A)
               (VRef demo_A) "e"
               [VRef demo_A; VRef FunctionPrototype; VRef ObjectPrototype]
               [mkBinding (VRef demo_C) (VRef 24%nat) VNull]);
      vm_compute; reflexivity.
Defined.

(** [Event.on(A, 'e', null)] returns and stores a binding without handler;
    [Event.trigger(a, 'e')] then raises. *)
Lemma null_handler_is_registered_and_breaks_trigger_witness :
  inherited_name "e" = false /\
  fst (@on (demo_host []) demo_Event (VRef demo_A) "e" VNull VUndefined VUndefined demo_world)
    = Ok tt /\
  bindings demo_world_null "e" = [mkBinding (VRef demo_A) VNull VNull] /\
  GetV (objects demo_world_null) (VRef demo_a) "constructor" = Ok (VRef demo_A) /\
  @trigger (demo_host []) demo_world_null (VRef demo_a) "e" None = ([], Err TypeError).
Proof.
  split; [reflexivity|].
  destruct (proj1 (@null_handler_is_registered_and_breaks_trigger (demo_host []) demo_world
                     demo_Event "e")
              (VRef demo_A) (VRef demo_A) VNull VUndefined VUndefined
              (or_intror eq_refl) eq_refl eq_refl) as [Hret Hb].
  split; [exact Hret|]. split; [exact Hb|]. split; [vm_compute; reflexivity|].
  refine (proj2 (@null_handler_is_registered_and_breaks_trigger (demo_host []) demo_world_null
                   demo_Event "e")
            demo_a (VRef demo_A) [] [] (mkBinding (VRef demo_A) VNull VNull) None _ _ _ _ _);
    try (vm_compute; reflexivity).
  intros [].
Defined.


Lemma handler_exception_ends_trigger_witness :
  fst (@trigger (demo_host_throwing [demo_h2]) demo_world_AB (VRef demo_c) "e" None)
    = [] ++ mkInvocation demo_h2 VNull (demo_event demo_c) :: [] /\
  snd (@trigger (demo_host_throwing [demo_h2]) demo_world_AB (VRef demo_c) "e" None)
    = Err (Thrown (VString "boom")).
Proof.
  split; [vm_compute; reflexivity|].
  refine (proj2 (@handler_exception_ends_trigger (demo_host_throwing [demo_h2]) demo_world_AB
                   (VRef demo_c) "e" None [] []
                   (mkInvocation demo_h2 VNull (demo_event demo_c))
                   (Thrown (VString "boom")) _ _));
    vm_compute; reflexivity.
Defined.

Lemma trigger_calls_only_bindings_on_the_chain_witness :
  In (mkInvocation demo_h2 VNull (demo_event demo_c))
     (fst (@trigger (demo_host []) demo_world_AB (VRef demo_c) "e" None)) /\
  exists b, In b (bindings demo_world_AB "e") /\
            In (item0 b) [VRef demo_C; VRef demo_B; VRef demo_A;
                          VRef FunctionPrototype; VRef ObjectPrototype] /\
            call_of (objects demo_world_AB) (mkInvocation demo_h2 VNull (demo_event demo_c)) b.
Proof.
  assert (Hin : In (mkInvocation demo_h2 VNull (demo_event demo_c))
                  (fst (@trigger (demo_host []) demo_world_AB (VRef demo_c) "e" None)))
    by (vm_compute; left; reflexivity).
  split; [exact Hin|].
  refine (@trigger_calls_only_bindings_on_the_chain (demo_host []) demo_world_AB demo_c
            (VRef demo_C) "e" None _ _ _ _ Hin); vm_compute; reflexivity.
Defined.


Lemma normalizeHandler_idempotent_witness :
  fst (@normalizeHandler (demo_host []) demo_Event (VRef demo_h1) VUndefined demo_world)
    = Ok (VRef 24%nat) /\
  @normalizeHandler (demo_host []) demo_A (VRef 24%nat) (VRef demo_a)
    (snd (@normalizeHandler (demo_host []) demo_Event (VRef demo_h1) VUndefined demo_world))
  = (Ok (VRef 24%nat),
     snd (@normalizeHandler (demo_host []) demo_Event (VRef demo_h1) VUndefined demo_world)).
Proof.
  split; [vm_compute; reflexivity|].
  refine (proj2 (@normalizeHandler_idempotent (demo_host []) demo_world _ demo_Event
                   (VRef demo_h1) VUndefined (VRef 24%nat) _) demo_A (VRef demo_a)).
  vm_compute; reflexivity.
Defined.

Lemma callable_pair_normalization_witness :
  callable_pair_at (objects demo_world_pair) demo_callable_pair demo_callable_pair_object
    demo_h1 demo_a /\
  @normalizeHandler (demo_host []) demo_Event (VRef demo_callable_pair) (VRef demo_b)
    demo_world_pair
  = (Ok (VRef 25%nat),
     mkWorld (objects demo_world_pair ++ [handler_object (VRef demo_a) (VRef demo_h1)])
       (_events demo_world_pair)).
Proof.
  assert (Hp : callable_pair_at (objects demo_world_pair) demo_callable_pair
                 demo_callable_pair_object demo_h1 demo_a)
    by (repeat split; vm_compute; reflexivity).
  split; [exact Hp|].
  exact (@callable_pair_normalization (demo_host []) demo_world_pair demo_Event
           demo_callable_pair demo_h1 demo_a demo_callable_pair_object (VRef demo_b) Hp).
Defined.

(** The registry after [Event.on(A, 'e', h1)] is normalized, and stays so
    under a prepending [on] of the array [['app.A', 'm']] and under an
    [off] with the function h1. *)
Lemma registry_stays_normalized_witness :
  bindings demo_world_A "e" = [mkBinding (VRef demo_A) (VRef 24%nat) VNull] /\
  registry_normalized demo_world_A /\
  registry_normalized
    (snd (@on (demo_host []) demo_Event (VRef demo_B) "e" (VRef demo_pair)
            VUndefined (VBool false) demo_world_A)) /\
  registry_normalized
    (snd (@off (demo_host []) demo_Event (VRef demo_B) "e" (VRef demo_h1) demo_world_A)).
Proof.
  assert (Hw : registry_normalized demo_world_A).
  { intros ename items b He Hb.
    change (_events demo_world_A)
      with (<["e" := [mkBinding (VRef demo_A) (VRef 24%nat) VNull]]>
              (∅ : gmap string (list binding))) in He.
    destruct (decide (ename = "e")) as [->|Hne].
    - rewrite lookup_insert_eq in He. injection He as <-.
      destruct Hb as [<-|[]]. right. vm_compute. reflexivity.
    - rewrite lookup_insert_ne in He by congruence. rewrite lookup_empty in He.
      discriminate. }
  split; [vm_compute; reflexivity|]. split; [exact Hw|]. split.
  - exact (proj1 (@registry_stays_normalized (demo_host []) demo_world_A demo_Event
                    (VRef demo_B) "e" (VRef demo_pair) VUndefined (VBool false) Hw)).
  - exact (proj2 (@registry_stays_normalized (demo_host []) demo_world_A demo_Event
                    (VRef demo_B) "e" (VRef demo_h1) VUndefined VUndefined Hw)).
Defined.

Lemma typecast_result_has_the_column_type_witness :
  @ModelAttributeSchema.typecast (demo_host []) demo_library demo_schema demo_heap
    (VString "42") = Ok (VNumber 42) /\
  (VNumber 42 = VNull \/
   VString (typeof demo_heap (VNumber 42)) = ModelAttributeSchema.jsType demo_schema \/
   (VNumber 42 = VString "42" /\
    instanceof demo_heap (VString "42") (@Expression demo_library) = Ok true)).
Proof.
  split; [vm_compute; reflexivity|].
  apply (@typecast_result_has_the_column_type (demo_host []) demo_library demo_schema
           demo_heap (VString "42") (VNumber 42)).
  - right. left. reflexivity.
  - vm_compute; reflexivity.
Defined.

Lemma typecast_idempotent_witness :
  @ModelAttributeSchema.typecast (demo_host []) demo_library demo_schema demo_heap (VBool true)
    = Ok (VNumber 1) /\
  @ModelAttributeSchema.typecast (demo_host []) demo_library demo_schema demo_heap (VNumber 1)
    = Ok (VNumber 1).
Proof.
  split; [vm_compute; reflexivity|].
  apply (@typecast_idempotent (demo_host []) demo_library demo_schema demo_heap
           (VBool true) (VNumber 1)).
  - vm_compute; reflexivity.
  - left. discriminate.
Defined.

Lemma toJSON_is_bare_type_or_object_without_nulls_witness :
  ModelAttributeSchema.toJSON
    (ModelAttributeSchema.mkSchema (VBool false) VNull VNull (VString "integer") VNull)
    demo_world
  = (Ok (VString "integer"), demo_world) /\
  exists o,
    ModelAttributeSchema.toJSON demo_schema demo_world =
      (Ok (VRef (List.length (objects demo_world))),
       mkWorld (objects demo_world ++ [o]) (_events demo_world)) /\
    (forall k v, o_props o !! k = Some v -> v <> VNull) /\
    (is_Some (o_props o !! "type") <-> ModelAttributeSchema.type demo_schema <> VNull).
Proof.
  split.
  - apply (proj1 (toJSON_is_bare_type_or_object_without_nulls
                    (ModelAttributeSchema.mkSchema (VBool false) VNull VNull
                       (VString "integer") VNull) demo_world)).
    repeat split; reflexivity.
  - apply (proj2 (toJSON_is_bare_type_or_object_without_nulls demo_schema demo_world)).
    intros (_ & _ & Hj & _). discriminate.
Defined.
